(** * NFT explorer frame: the search / pagination logic of [Demo.tsx]

    A shallow embedding of [searchNFTs], [loadMore] and the
    intersection-observer callback of [src/components/Demo.tsx], with the
    React state they update, the requests they issue and the single-threaded
    interleaving of their continuations, followed by the properties of the
    incremental fetch-and-merge protocol. *)

From Stdlib Require Import ZArith Ascii String List Sorting.Sorted Sorting.Permutation.
From stdpp Require Import base decidable option list gmap strings.
Import ListNotations.

Local Open Scope string_scope.
Local Open Scope Z_scope.
Local Open Scope list_scope.

(** ** JavaScript values used by the component *)

Module JS.

(** Strings are sequences of code units; the embedding keeps the code
    units 0..255. *)

(** [!s] is false exactly for the empty string. *)
Definition truthy (s : string) : bool :=
  match s with EmptyString => false | String _ _ => true end.

(** An optional value ([undefined] / [null] / a string). *)
Definition truthy_opt (o : option string) : bool :=
  match o with Some s => truthy s | None => false end.

(** [a || b] where [a] may be absent and [b] is a string. *)
Definition or_else (a : option string) (b : string) : string :=
  match a with
  | Some s => if truthy s then s else b
  | None => b
  end.

(** [a || null]. *)
Definition or_null (a : option string) : option string :=
  match a with
  | Some s => if truthy s then Some s else None
  | None => None
  end.

(** *** Numbers

    [parseInt] only produces NaN, the infinities and integer-valued
    doubles.  [Fin z] carries the integer a finite double denotes; [-0]
    and [+0] are both [Fin 0] (they are never told apart by [<] and [>]). *)
Inductive Number : Type :=
| NaN
| Inf (negative : bool)
| Fin (z : Z).

(** Round an integer to the nearest binary64 value, ties to even. *)
Definition toNumber (z : Z) : Number :=
  let a := Z.abs z in
  let e := Z.log2 a in
  if e <=? 52 then Fin z
  else
    let sh := e - 52 in
    let q := Z.shiftr a sh in
    let r := Z.land a (Z.ones sh) in
    let half := Z.shiftl 1 (sh - 1) in
    let q' := if r <? half then q
              else if half <? r then q + 1
              else if Z.even q then q else q + 1 in
    let m := Z.shiftl q' sh in
    if Z.shiftl 1 1024 <=? m then Inf (z <? 0)
    else Fin (Z.sgn z * m).

(** [x - y] on numbers. *)
Definition sub (x y : Number) : Number :=
  match x, y with
  | NaN, _ | _, NaN => NaN
  | Inf b, Inf b' => if Bool.eqb b b' then NaN else Inf b
  | Inf b, Fin _ => Inf b
  | Fin _, Inf b => Inf (negb b)
  | Fin a, Fin b => toNumber (a - b)
  end.

(** [v > 0] and [v < 0]; both are false on NaN. *)
Definition gt0 (v : Number) : bool :=
  match v with
  | NaN => false
  | Inf negative => negb negative
  | Fin z => 0 <? z
  end.

Definition lt0 (v : Number) : bool :=
  match v with
  | NaN => false
  | Inf negative => negative
  | Fin z => z <? 0
  end.

(** [x <= y]; false when either side is NaN. *)
Definition le (x y : Number) : bool :=
  match x, y with
  | NaN, _ | _, NaN => false
  | Inf true, _ => true
  | _, Inf false => true
  | Inf false, _ => false
  | _, Inf true => false
  | Fin a, Fin b => a <=? b
  end.

(** *** [parseInt(string)] with no radix argument *)

Definition code (c : ascii) : Z := Z.of_N (N_of_ascii c).

(** WhiteSpace and LineTerminator code units below 256. *)
Definition isWhiteSpace (c : ascii) : bool :=
  let n := code c in
  ((9 <=? n) && (n <=? 13)) || (n =? 32) || (n =? 160).

Fixpoint trimStart (s : string) : string :=
  match s with
  | String c rest => if isWhiteSpace c then trimStart rest else s
  | EmptyString => s
  end.

Definition digit_value (R : Z) (c : ascii) : option Z :=
  let n := code c in
  let v := if (48 <=? n) && (n <=? 57) then Some (n - 48)
           else if (97 <=? n) && (n <=? 122) then Some (n - 87)
           else if (65 <=? n) && (n <=? 90) then Some (n - 55)
           else None in
  match v with
  | Some d => if d <? R then Some d else None
  | None => None
  end.

(** The value of the longest prefix of radix-[R] digits; [acc] is the
    value read so far, [None] while no digit has been read. *)
Fixpoint digits (R : Z) (s : string) (acc : option Z) : option Z :=
  match s with
  | EmptyString => acc
  | String c rest =>
      match digit_value R c with
      | Some d => digits R rest (Some (R * default 0 acc + d))
      | None => acc
      end
  end.

Definition is_x (c : ascii) : bool := (code c =? 120) || (code c =? 88).

(** The mathematical integer [parseInt] reads, before it is converted to
    a double; [None] is the NaN case (no digit).  Every digit counts: the
    licence to drop decimal digits after the twentieth is not used. *)
Definition parseIntExact (input : string) : option Z :=
  let trimmed := trimStart input in
  let '(sign, unsigned) :=
    match trimmed with
    | String "-" rest => (-1, rest)
    | String "+" rest => (1, rest)
    | _ => (1, trimmed)
    end in
  let '(R, body) :=
    match unsigned with
    | String "0" (String x rest) =>
        if is_x x then (16, rest) else (10, unsigned)
    | _ => (10, unsigned)
    end in
  match digits R body None with
  | Some mathInt => Some (sign * mathInt)
  | None => None
  end.

Definition parseInt (input : string) : Number :=
  match parseIntExact input with
  | Some z => toNumber z
  | None => NaN
  end.

(** *** [/^0x[a-fA-F0-9]{40}$/i.test(query)] *)

Definition isHexDigit (c : ascii) : bool :=
  let n := code c in
  ((48 <=? n) && (n <=? 57)) || ((97 <=? n) && (n <=? 102))
  || ((65 <=? n) && (n <=? 70)).

Fixpoint allHex (s : string) : bool :=
  match s with
  | EmptyString => true
  | String c rest => isHexDigit c && allHex rest
  end.

Definition isAddress (query : string) : bool :=
  match query with
  | String "0" (String x rest) =>
      is_x x && (Z.of_nat (String.length rest) =? 40) && allHex rest
  | _ => false
  end.

End JS.

(** ** Data model *)

(** [NFTResult] as [searchNFTs] builds it ([tokenUri] is optional and never
    set there). *)
Record Media := { raw : string; gateway : string }.

Record Contract := { address : string; name : string; symbol : string }.

Record NFTResult := {
  contract : Contract;
  tokenId : string;
  title : string;
  description : string;
  media : list Media
}.

Record SearchSuggestion := {
  suggestion_name : string;
  suggestion_address : string;
  thumbnail : option string
}.

(** What the indexing service sends back, with the fields the component
    reads.  A field the code guards with [||], [?.] or [!] is optional. *)
Module Api.

Record Image := {
  originalUrl : option string;
  thumbnailUrl : option string;
  pngUrl : option string;
  url : option string
}.

Record NFT := {
  contract_address : string;
  contract_symbol : option string;
  tokenId : string;
  title : option string;
  name : option string;
  description : option string;
  image : option Image
}.

Record FoundContract := {
  found_name : option string;
  found_address : string
}.

(** A response body.  The three endpoints answer with different objects;
    as in JavaScript, reading a property the object lacks gives
    [undefined], so one record with every property optional covers them. *)
Record Json := {
  contracts : option (list FoundContract);
  contractMetadata_name : option string;
  nfts : option (list NFT);
  pageKey : option string
}.

(** [nft.image?.field] *)
Definition image_field (i : option Image) (f : Image -> option string) : option string :=
  match i with Some im => f im | None => None end.

End Api.

(** A thrown value: an [Error] with its message, or anything else. *)
Inductive Thrown : Type :=
| ErrorObject (message : string)
| OtherValue.

(** The requests [searchNFTs] sends. *)
Inductive Request : Type :=
| SearchContractMetadata (query : string) (page pageSize : Z)
| GetContractMetadata (contractAddress : string)
| GetNFTsForCollection (contractAddress : string) (withMetadata : bool)
                       (limit : Z) (pageKey : option string).

(** The outcome of [await fetch(...)] followed by [await response.json()]:
    no state is read or written between the two, so they are one
    suspension point here. *)
Inductive Response : Type :=
| Rejected (e : Thrown)
| NotOk
| BadBody (e : Thrown)
| Ok (data : Api.Json).

(** The [useState] cells of the component. *)
Record State := {
  searchQuery : string;
  searchResults : list NFTResult;
  selectedNFT : option NFTResult;
  isLoading : bool;
  error : option string;
  suggestions : list SearchSuggestion;
  showSuggestions : bool;
  isLoadingMore : bool;
  hasMore : bool;
  pageKey : option string;
  currentContractAddress : option string
}.

(** The state of the first render. *)
Definition initialState : State := {|
  searchQuery := "";
  searchResults := [];
  selectedNFT := None;
  isLoading := false;
  error := None;
  suggestions := [];
  showSuggestions := false;
  isLoadingMore := false;
  hasMore := true;
  pageKey := None;
  currentContractAddress := None
|}.

(** The setters called by the search logic. *)
Inductive Update : Type :=
| setSearchQuery (v : string)
| setSearchResults (f : list NFTResult -> list NFTResult)
| setIsLoading (v : bool)
| setError (v : option string)
| setShowSuggestions (v : bool)
| setIsLoadingMore (v : bool)
| setHasMore (v : bool)
| setPageKey (v : option string)
| setCurrentContractAddress (v : option string).

Definition applyUpdate (u : Update) (s : State) : State :=
  match u with
  | setSearchQuery v =>
      {| searchQuery := v; searchResults := searchResults s;
         selectedNFT := selectedNFT s; isLoading := isLoading s;
         error := error s; suggestions := suggestions s;
         showSuggestions := showSuggestions s;
         isLoadingMore := isLoadingMore s; hasMore := hasMore s;
         pageKey := pageKey s;
         currentContractAddress := currentContractAddress s |}
  | setSearchResults f =>
      {| searchQuery := searchQuery s; searchResults := f (searchResults s);
         selectedNFT := selectedNFT s; isLoading := isLoading s;
         error := error s; suggestions := suggestions s;
         showSuggestions := showSuggestions s;
         isLoadingMore := isLoadingMore s; hasMore := hasMore s;
         pageKey := pageKey s;
         currentContractAddress := currentContractAddress s |}
  | setIsLoading v =>
      {| searchQuery := searchQuery s; searchResults := searchResults s;
         selectedNFT := selectedNFT s; isLoading := v;
         error := error s; suggestions := suggestions s;
         showSuggestions := showSuggestions s;
         isLoadingMore := isLoadingMore s; hasMore := hasMore s;
         pageKey := pageKey s;
         currentContractAddress := currentContractAddress s |}
  | setError v =>
      {| searchQuery := searchQuery s; searchResults := searchResults s;
         selectedNFT := selectedNFT s; isLoading := isLoading s;
         error := v; suggestions := suggestions s;
         showSuggestions := showSuggestions s;
         isLoadingMore := isLoadingMore s; hasMore := hasMore s;
         pageKey := pageKey s;
         currentContractAddress := currentContractAddress s |}
  | setShowSuggestions v =>
      {| searchQuery := searchQuery s; searchResults := searchResults s;
         selectedNFT := selectedNFT s; isLoading := isLoading s;
         error := error s; suggestions := suggestions s;
         showSuggestions := v;
         isLoadingMore := isLoadingMore s; hasMore := hasMore s;
         pageKey := pageKey s;
         currentContractAddress := currentContractAddress s |}
  | setIsLoadingMore v =>
      {| searchQuery := searchQuery s; searchResults := searchResults s;
         selectedNFT := selectedNFT s; isLoading := isLoading s;
         error := error s; suggestions := suggestions s;
         showSuggestions := showSuggestions s;
         isLoadingMore := v; hasMore := hasMore s;
         pageKey := pageKey s;
         currentContractAddress := currentContractAddress s |}
  | setHasMore v =>
      {| searchQuery := searchQuery s; searchResults := searchResults s;
         selectedNFT := selectedNFT s; isLoading := isLoading s;
         error := error s; suggestions := suggestions s;
         showSuggestions := showSuggestions s;
         isLoadingMore := isLoadingMore s; hasMore := v;
         pageKey := pageKey s;
         currentContractAddress := currentContractAddress s |}
  | setPageKey v =>
      {| searchQuery := searchQuery s; searchResults := searchResults s;
         selectedNFT := selectedNFT s; isLoading := isLoading s;
         error := error s; suggestions := suggestions s;
         showSuggestions := showSuggestions s;
         isLoadingMore := isLoadingMore s; hasMore := hasMore s;
         pageKey := v;
         currentContractAddress := currentContractAddress s |}
  | setCurrentContractAddress v =>
      {| searchQuery := searchQuery s; searchResults := searchResults s;
         selectedNFT := selectedNFT s; isLoading := isLoading s;
         error := error s; suggestions := suggestions s;
         showSuggestions := showSuggestions s;
         isLoadingMore := isLoadingMore s; hasMore := hasMore s;
         pageKey := pageKey s;
         currentContractAddress := v |}
  end.

(** ** Asynchronous programs

    An [async] function is a tree of setter calls and awaited requests; the
    function after [Await] is the rest of the body, resumed with the
    response once it arrives.  [console.error] is not represented. *)
Inductive Prog (A : Type) : Type :=
| Pure (a : A)
| Call (u : Update) (k : Prog A)
| Await (r : Request) (k : Response -> Prog A).

Arguments Pure {A} a.
Arguments Call {A} u k.
Arguments Await {A} r k.

Fixpoint bind {A B : Type} (p : Prog A) (f : A -> Prog B) : Prog B :=
  match p with
  | Pure a => f a
  | Call u k => Call u (bind k f)
  | Await r k => Await r (fun resp => bind (k resp) f)
  end.

Definition call (u : Update) : Prog unit := Call u (Pure tt).

(** How a block inside [try] ends: normally, by [return], or by [throw]. *)
Inductive Completion (A : Type) : Type :=
| Normal (a : A)
| Return
| Throw (e : Thrown).

Arguments Normal {A} a.
Arguments Return {A}.
Arguments Throw {A} e.

Definition Block (A : Type) : Type := Prog (Completion A).

Definition ret {A : Type} (a : A) : Block A := Pure (Normal a).
Definition return_ {A : Type} : Block A := Pure Return.
Definition throw {A : Type} (e : Thrown) : Block A := Pure (Throw e).

Definition bindB {A B : Type} (p : Block A) (f : A -> Block B) : Block B :=
  bind p (fun c =>
    match c with
    | Normal a => f a
    | Return => Pure Return
    | Throw e => Pure (Throw e)
    end).

(** [try { body } catch (err) { handler } finally { finalizer }] where
    neither the handler nor the finalizer throws. *)
Definition try_catch_finally {A : Type} (body : Block A)
    (handler : Thrown -> Prog unit) (finalizer : Prog unit) : Prog unit :=
  bind body (fun c =>
    bind (match c with
          | Throw e => handler e
          | Normal _ | Return => Pure tt
          end)
         (fun _ => finalizer)).

(** [await fetch(request)]: the response, or the rejection rethrown. *)
Definition fetch (r : Request) : Block Response :=
  Await r (fun resp =>
    match resp with
    | Rejected e => throw e
    | _ => ret resp
    end).

(** [response.ok] *)
Definition ok (resp : Response) : bool :=
  match resp with
  | NotOk | Rejected _ => false
  | BadBody _ | Ok _ => true
  end.

(** [await response.json()].  The code reads the body only after it has
    tested [ok], so the last two cases are never reached. *)
Definition json (resp : Response) : Block Api.Json :=
  match resp with
  | Ok data => ret data
  | BadBody e => throw e
  | Rejected e => throw e
  | NotOk => throw OtherValue
  end.

Declare Scope prog_scope.
Delimit Scope prog_scope with prog.
Notation "x <- p ;; q" := (bindB p (fun x => q))
  (at level 100, p at next level, right associativity) : prog_scope.
Notation "p ;; q" := (bind p (fun _ => q))
  (at level 100, right associativity) : prog_scope.

(** ** The result merge (the updater passed to [setSearchResults]) *)

(** [newResults.filter(nft => { duplicate = seen.has(nft.tokenId);
    seen.add(nft.tokenId); return !duplicate })], with the set [seen]
    threaded through the traversal. *)
Fixpoint filterUnseen (seen : gset string) (newResults : list NFTResult)
    : list NFTResult :=
  match newResults with
  | [] => []
  | nft :: rest =>
      let duplicate := bool_decide (tokenId nft ∈ seen) in
      let seen := {[ tokenId nft ]} ∪ seen in
      if negb duplicate then nft :: filterUnseen seen rest
      else filterUnseen seen rest
  end.

(** The comparator [(a, b) => parseInt(a.tokenId) - parseInt(b.tokenId)]. *)
Definition compareTokenId (a b : NFTResult) : JS.Number :=
  JS.sub (JS.parseInt (tokenId a)) (JS.parseInt (tokenId b)).

(** [Array.prototype.sort(comparefn)] as a stable insertion sort: an element
    moves behind another only when [comparefn] is positive on the pair.
    The language fixes the result of [sort] (the stable sorted permutation)
    only for a consistent [comparefn]; [compareTokenId] is consistent when
    no id parses to [NaN], and this function is the engine's sort on such
    lists.  On a list with an id that parses to [NaN] the engine's order
    is its own, and only the elements of the result, not their order, are
    those of the code: every statement about order below carries the
    hypothesis that the ids are numeric. *)
Section Sort.
Context {A : Type} (comparefn : A -> A -> JS.Number).

Fixpoint insertSorted (x : A) (l : list A) : list A :=
  match l with
  | [] => [x]
  | y :: rest =>
      if JS.gt0 (comparefn x y) then y :: insertSorted x rest
      else x :: y :: rest
  end.

Fixpoint sort (l : list A) : list A :=
  match l with
  | [] => []
  | x :: rest => insertSorted x (sort rest)
  end.
End Sort.

Definition mergeResults (resetResults : bool) (formattedNFTs : list NFTResult)
    (prevResults : list NFTResult) : list NFTResult :=
  let newResults :=
    if resetResults then formattedNFTs
    else prevResults ++ formattedNFTs in
  let deduplicatedNFTs := filterUnseen ∅ newResults in
  sort compareTokenId deduplicatedNFTs.

(** ** [searchNFTs] *)

Definition formatNFT (contractName : string) (nft : Api.NFT) : NFTResult :=
  let img := Api.image_field (Api.image nft) in
  {| contract :=
       {| address := Api.contract_address nft;
          name := contractName;
          symbol := JS.or_else (Api.contract_symbol nft) "" |};
     tokenId := Api.tokenId nft;
     title :=
       JS.or_else (Api.title nft)
         (JS.or_else (Api.name nft)
            (contractName ++ " #" ++ Api.tokenId nft)%string);
     description := JS.or_else (Api.description nft) "";
     media :=
       [ {| raw :=
              JS.or_else (img Api.originalUrl)
                (JS.or_else (img Api.thumbnailUrl)
                   (JS.or_else (img Api.pngUrl)
                      (JS.or_else (img Api.url) "")));
            gateway :=
              JS.or_else (img Api.thumbnailUrl)
                (JS.or_else (img Api.pngUrl)
                   (JS.or_else (img Api.url)
                      (JS.or_else (img Api.originalUrl) ""))) |} ] |}.

(** [err instanceof Error ? err.message : '...'] *)
Definition errorMessage (err : Thrown) : string :=
  match err with
  | ErrorObject message => message
  | OtherValue => "An error occurred while searching"
  end.

(** [searchNFTs(query, contractAddress, resetResults)].  The first argument
    is the [pageKey] of the render whose closure is being called: it is the
    only state the body reads, everything else goes through setters. *)
Definition searchNFTs (pageKey : option string) (query : string)
    (contractAddress : option string) (resetResults : bool) : Prog unit :=
  if negb (JS.truthy query) && negb (JS.truthy_opt contractAddress)
  then Pure tt
  else
    ((if resetResults then
        call (setIsLoading true);;
        call (setSearchResults (fun _ => []));;
        call (setPageKey None);;
        call (setHasMore true)
      else
        call (setIsLoadingMore true));;
     call (setError None);;
     call (setShowSuggestions false);;
     try_catch_finally
       (let targetAddress := contractAddress in
        targetAddress <-
          (if negb (JS.truthy_opt targetAddress) then
             let isAddress := JS.isAddress query in
             if isAddress then ret query
             else
               searchResponse <- fetch (SearchContractMetadata query 1 1);;
               if negb (ok searchResponse)
               then throw (ErrorObject "Failed to search for collection")
               else
                 searchData <- json searchResponse;;
                 match Api.contracts searchData with
                 | None | Some [] =>
                     call (setError (Some "Collection not found"));;
                     call (setSearchResults (fun _ => []));;
                     return_
                 | Some (first :: _) => ret (Api.found_address first)
                 end
           else ret (default "" targetAddress));;
        (if JS.truthy targetAddress
         then call (setCurrentContractAddress (Some targetAddress))
         else Pure tt);;
        contractResponse <- fetch (GetContractMetadata targetAddress);;
        if negb (ok contractResponse)
        then throw (ErrorObject "Failed to fetch contract metadata")
        else
          contractData <- json contractResponse;;
          let contractName :=
            JS.or_else (Api.contractMetadata_name contractData) query in
          nftsResponse <-
            fetch (GetNFTsForCollection (JS.or_else (Some targetAddress) "")
                     true 100 (JS.or_null pageKey));;
          if negb (ok nftsResponse)
          then throw (ErrorObject "Failed to fetch NFTs from collection")
          else
            nftsData <- json nftsResponse;;
            match Api.nfts nftsData with
            | None | Some [] =>
                (if resetResults then
                   call (setError (Some "No NFTs found in this collection"));;
                   call (setSearchResults (fun _ => []))
                 else Pure tt);;
                call (setHasMore false);;
                return_
            | Some nfts =>
                call (setPageKey (JS.or_null (Api.pageKey nftsData)));;
                call (setHasMore (JS.truthy_opt (Api.pageKey nftsData)));;
                let formattedNFTs := map (formatNFT contractName) nfts in
                call (setSearchResults (mergeResults resetResults formattedNFTs));;
                ret tt
            end)
       (fun err =>
          call (setError (Some (errorMessage err)));;
          if resetResults then call (setSearchResults (fun _ => []))
          else Pure tt)
       (call (setIsLoading false);;
        call (setIsLoadingMore false)))%prog.

(** ** Running a call

    A call runs until it awaits; everything else in the component may run
    before the response arrives.  An environment entry gives, for one
    awaited request, what the rest of the component did to the state in
    the meantime and the response that then arrives. *)
Definition Env : Type := list ((State -> State) * Response).

Inductive Status (A : Type) : Type :=
| Finished (a : A)
| Suspended (r : Request) (k : Response -> Prog A).

Arguments Finished {A} a.
Arguments Suspended {A} r k.

Record Run (A : Type) := {
  final : State;
  sent : list Request;
  status : Status A
}.

Arguments final {A} _.
Arguments sent {A} _.
Arguments status {A} _.

Fixpoint exec {A : Type} (p : Prog A) (s : State) (env : Env) : Run A :=
  match p with
  | Pure a => {| final := s; sent := []; status := Finished a |}
  | Call u k => exec k (applyUpdate u s) env
  | Await r k =>
      match env with
      | [] => {| final := s; sent := [r]; status := Suspended r k |}
      | (others, resp) :: env' =>
          let run := exec (k resp) (others s) env' in
          {| final := final run; sent := r :: sent run; status := status run |}
      end
  end.

Definition suspended {A : Type} (run : Run A) : bool :=
  match status run with Suspended _ _ => true | Finished _ => false end.

Definition finished {A : Type} (run : Run A) : bool :=
  match status run with Suspended _ _ => false | Finished _ => true end.

(** The request a suspended run is waiting for. *)
Definition awaited {A : Type} (run : Run A) : option Request :=
  match status run with Suspended r _ => Some r | Finished _ => None end.

Definition isListing (r : Request) : bool :=
  match r with GetNFTsForCollection _ _ _ _ => true | _ => false end.

Definition isNameSearch (r : Request) : bool :=
  match r with SearchContractMetadata _ _ _ => true | _ => false end.

Definition awaitsListing {A : Type} (run : Run A) : bool :=
  match awaited run with Some r => isListing r | None => false end.


(** [!nftsData.nfts || nftsData.nfts.length === 0] *)
Definition noItems (data : Api.Json) : bool :=
  match Api.nfts data with None | Some [] => true | Some (_ :: _) => false end.

(** ** The component as an event loop *)

(** A request in flight with the suspended rest of its [searchNFTs] call. *)
Record Task := { request : Request; resume : Response -> Prog unit }.

(** [loadMore] is memoised by [useCallback] on [isLoadingMore], [hasMore]
    and [currentContractAddress]: it keeps those values and the
    [searchNFTs] (hence the [pageKey]) of the render that last changed
    one of them. *)
Record LoadMoreClosure := {
  seen_isLoadingMore : bool;
  seen_hasMore : bool;
  seen_currentContractAddress : option string;
  seen_pageKey : option string
}.

Record World := {
  state : State;
  loadMoreClosure : LoadMoreClosure;
  inflight : list Task;
  network : list Request
}.

Definition capture (s : State) : LoadMoreClosure :=
  {| seen_isLoadingMore := isLoadingMore s;
     seen_hasMore := hasMore s;
     seen_currentContractAddress := currentContractAddress s;
     seen_pageKey := pageKey s |}.

Definition sameDeps (c : LoadMoreClosure) (s : State) : bool :=
  bool_decide (seen_isLoadingMore c = isLoadingMore s)
  && bool_decide (seen_hasMore c = hasMore s)
  && bool_decide (seen_currentContractAddress c = currentContractAddress s).

(** Re-render after a synchronous stretch of code has run. *)
Definition render (w : World) : World :=
  {| state := state w;
     loadMoreClosure :=
       if sameDeps (loadMoreClosure w) (state w) then loadMoreClosure w
       else capture (state w);
     inflight := inflight w;
     network := network w |}.

(** Run a program up to its next [await].  The setters it calls update
    the state; the re-render they ask for comes later, and until then
    every closure is the one the last render created. *)
Definition launch (p : Prog unit) (w : World) : World :=
  let run := exec p (state w) [] in
  {| state := final run;
     loadMoreClosure := loadMoreClosure w;
     inflight :=
       inflight w ++
       match status run with
       | Suspended r k => [ {| request := r; resume := k |} ]
       | Finished _ => []
       end;
     network := network w ++ sent run |}.

Definition loadMore (w : World) : World :=
  let c := loadMoreClosure w in
  if negb (seen_isLoadingMore c) && seen_hasMore c
     && JS.truthy_opt (seen_currentContractAddress c)
  then
    let currentContractAddress := default "" (seen_currentContractAddress c) in
    launch (searchNFTs (seen_pageKey c) currentContractAddress
              (Some currentContractAddress) false) w
  else w.

(** The [load-more-trigger] element is in the page. *)
Definition triggerRendered (s : State) : bool :=
  (hasMore s || isLoadingMore s)
  && negb (bool_decide (searchResults s = [])).

Inductive Event : Type :=
| TypeQuery (text : string)
    (* input onChange *)
| Submit
    (* Enter key or Search button: searchNFTs(searchQuery) *)
| Pick (name : string) (address : string)
    (* a suggestion or a popular collection:
       setSearchQuery(name); searchNFTs(name, address) *)
| Intersect
    (* the observer reports the trigger element as intersecting *)
| Respond (i : nat) (resp : Response).
    (* the i-th request in flight settles *)

(** One event, handled by the closures of the render that saw the state
    [closures]: the handlers of the input and of the buttons read
    [searchQuery] and [pageKey] there, the observer's callback reads
    [isLoading], [isLoadingMore] and [hasMore] there, and the trigger
    element is in the page when that render put it there.  The state the
    setters update is [state w]. *)
Definition handle (closures : State) (w : World) (ev : Event) : World :=
  match ev with
  | TypeQuery text => launch (call (setSearchQuery text)) w
  | Submit =>
      launch (searchNFTs (pageKey closures) (searchQuery closures) None true) w
  | Pick name address =>
      launch (call (setSearchQuery name);;
              searchNFTs (pageKey closures) name (Some address) true)%prog w
  | Intersect =>
      if triggerRendered closures && negb (isLoading closures)
         && negb (isLoadingMore closures) && hasMore closures
      then loadMore w
      else w
  | Respond i resp =>
      match inflight w !! i with
      | Some task =>
          launch (resume task resp)
            {| state := state w;
               loadMoreClosure := loadMoreClosure w;
               inflight := delete i (inflight w);
               network := network w |}
      | None => w
      end
  end.

(** An event that finds the page up to date, and the re-render that follows
    it: the closures that handle the event are those of a render that saw
    the current state, and the next event finds the page re-rendered. *)
Definition step (w : World) (ev : Event) : World :=
  render (handle (state w) w ev).

(** A run in which a re-render separates every two events. *)
Definition steps (w : World) (evs : list Event) : World :=
  fold_left step evs w.

Definition initialWorld : World :=
  {| state := initialState;
     loadMoreClosure := capture initialState;
     inflight := [];
     network := [] |}.

(** The page between two events: the world, and the state seen by the
    render whose closures are installed.  Events and re-renders are
    separate: several events may be handled by the same closures before the
    page is rendered again. *)
Record Browser := { page : World; closures : State }.

Inductive Action : Type :=
| Deliver (ev : Event)
| Rerender.

Definition act (b : Browser) (a : Action) : Browser :=
  match a with
  | Deliver ev =>
      {| page := handle (closures b) (page b) ev; closures := closures b |}
  | Rerender =>
      {| page := render (page b); closures := state (page b) |}
  end.

Definition acts (b : Browser) (l : list Action) : Browser :=
  fold_left act l b.

Definition initialBrowser : Browser :=
  {| page := initialWorld; closures := initialState |}.

(** The run in which each event is followed by a re-render. *)
Definition rerendered (evs : list Event) : list Action :=
  flat_map (fun ev => [Deliver ev; Rerender]) evs.

(** ** Predicates used in the statements *)

Definition tokenIds (l : list NFTResult) : list string := map tokenId l.

(** Order of the numbers [parseInt] reads from the ids. *)
Definition numericOrder (a b : NFTResult) : Prop :=
  JS.le (JS.parseInt (tokenId a)) (JS.parseInt (tokenId b)) = true.

(** Order of the integers the ids denote. *)
Definition exactOrder (a b : NFTResult) : Prop :=
  match JS.parseIntExact (tokenId a), JS.parseIntExact (tokenId b) with
  | Some x, Some y => x <= y
  | _, _ => False
  end.

Definition numeric (nft : NFTResult) : Prop :=
  JS.parseInt (tokenId nft) <> JS.NaN.

(** The id is a number every double represents exactly. *)
Definition safeInteger (nft : NFTResult) : Prop :=
  match JS.parseIntExact (tokenId nft) with
  | Some z => Z.abs z < 2 ^ 53
  | None => False
  end.

Definition hasTokenId (t : string) (nft : NFTResult) : bool :=
  String.eqb (tokenId nft) t.

(** A property of every [await] of a program: the awaited request and the
    code resumed by its response. *)
Fixpoint everyAwait {A : Type} (P : Request -> (Response -> Prog A) -> Prop)
    (p : Prog A) : Prop :=
  match p with
  | Pure _ => True
  | Call _ k => everyAwait P k
  | Await r k => P r k /\ forall resp, everyAwait P (k resp)
  end.




(** What the response to a listing request does when it holds no item. *)
Definition emptyPageEnds (resetResults : bool) (r : Request)
    (k : Response -> Prog unit) : Prop :=
  isListing r = true ->
  forall (data : Api.Json) (s : State), noItems data = true ->
    let run := exec (k (Ok data)) s [] in
    status run = Finished tt /\ sent run = [] /\
    hasMore (final run) = false /\
    error (final run) =
      (if resetResults then Some "No NFTs found in this collection"
       else error s) /\
    searchResults (final run) = (if resetResults then [] else searchResults s) /\
    pageKey (final run) = pageKey s /\
    isLoading (final run) = false /\ isLoadingMore (final run) = false.

(** What the response to a listing request does when it holds items. *)
Definition pageMerged (resetResults : bool) (r : Request)
    (k : Response -> Prog unit) : Prop :=
  isListing r = true ->
  exists contractName : string,
  forall (data : Api.Json) (s : State), noItems data = false ->
    let run := exec (k (Ok data)) s [] in
    status run = Finished tt /\ sent run = [] /\
    searchResults (final run) =
      mergeResults resetResults
        (map (formatNFT contractName) (default [] (Api.nfts data)))
        (searchResults s) /\
    pageKey (final run) = JS.or_null (Api.pageKey data) /\
    hasMore (final run) = JS.truthy_opt (Api.pageKey data) /\
    error (final run) = error s /\
    currentContractAddress (final run) = currentContractAddress s /\
    isLoading (final run) = false /\ isLoadingMore (final run) = false.

(** Example data for the closed instances below. *)
Module Example.

Definition azuki : string := "0xED5AF388653567Af2F388E6224dC7C4b3241C544".
Definition doodles : string := "0x8a90CAb2b38dba80c64b7734e58Ee1dB38B8992e".

Definition token (contractAddress id : string) : Api.NFT :=
  {| Api.contract_address := contractAddress;
     Api.contract_symbol := None;
     Api.tokenId := id;
     Api.title := None;
     Api.name := None;
     Api.description := None;
     Api.image := None |}.

Definition metadata (name : option string) : Api.Json :=
  {| Api.contracts := None;
     Api.contractMetadata_name := name;
     Api.nfts := None;
     Api.pageKey := None |}.

Definition page (contractAddress : string) (ids : list string)
    (next : option string) : Api.Json :=
  {| Api.contracts := None;
     Api.contractMetadata_name := None;
     Api.nfts := Some (map (token contractAddress) ids);
     Api.pageKey := next |}.

Definition found (l : list (string * string)) : Api.Json :=
  {| Api.contracts :=
       Some (map (fun '(n, a) =>
                    {| Api.found_name := Some n; Api.found_address := a |}) l);
     Api.contractMetadata_name := None;
     Api.nfts := None;
     Api.pageKey := None |}.

Definition item (id label : string) : NFTResult :=
  {| contract := {| address := azuki; name := "Azuki"; symbol := "" |};
     tokenId := id;
     title := label;
     description := "";
     media := [] |}.

(** A state with two results and a next page. *)
Definition browsing : State :=
  {| searchQuery := "Azuki";
     searchResults := [item "1" "first"; item "2" "second"];
     selectedNFT := None;
     isLoading := false;
     error := None;
     suggestions := [];
     showSuggestions := false;
     isLoadingMore := false;
     hasMore := true;
     pageKey := Some "page-2";
     currentContractAddress := Some azuki |}.

End Example.

(** The address pattern as the specification words it: 40 hexadecimal
    characters, case-insensitive, with an optional [0x] prefix.  It is
    compared below with [JS.isAddress], the pattern of the code. *)
Definition specAddressPattern (query : string) : bool :=
  JS.isAddress query
  || ((Z.of_nat (String.length query) =? 40) && JS.allHex query).

(** [!searchData.contracts || searchData.contracts.length === 0] *)
Definition noMatch (data : Api.Json) : bool :=
  match Api.contracts data with
  | None | Some [] => true
  | Some (_ :: _) => false
  end.

(** The id is read as a number by [parseInt]. *)
Definition numericId (t : string) : Prop := JS.parseInt t <> JS.NaN.

(** ** Loading flags and requests in flight *)

Definition loading (s : State) : bool := isLoading s || isLoadingMore s.

Definition raisesFlag (u : Update) : bool :=
  match u with
  | setIsLoading true | setIsLoadingMore true => true
  | _ => false
  end.

Definition lowersFlag (u : Update) : bool :=
  match u with
  | setIsLoading false | setIsLoadingMore false => true
  | _ => false
  end.

(** The program never awaits without a loading flag raised: [held] says
    whether one is known to be raised where the program starts, and the
    code resumed by a response starts with the flag still raised. *)
Fixpoint flagHeld (held : bool) (p : Prog unit) : Prop :=
  match p with
  | Pure _ => True
  | Call u k =>
      flagHeld
        (if raisesFlag u then true else if lowersFlag u then false else held) k
  | Await r k => held = true /\ forall resp, flagHeld true (k resp)
  end.

(** Nothing in flight, or one request whose call holds a loading flag. *)
Definition oneAtATime (w : World) : Prop :=
  match inflight w with
  | [] => True
  | [task] =>
      loading (state w) = true /\ forall resp, flagHeld true (resume task resp)
  | _ :: _ :: _ => False
  end.

(** A new search is begun only while nothing is in flight. *)
Definition admissible (w : World) (ev : Event) : bool :=
  match ev with
  | Submit | Pick _ _ => bool_decide (inflight w = [])
  | TypeQuery _ | Intersect | Respond _ _ => true
  end.

Fixpoint sequential (w : World) (evs : list Event) : bool :=
  match evs with
  | [] => true
  | ev :: rest => admissible w ev && sequential (step w ev) rest
  end.

(** ** What a result card and the detail view show *)

(** [`${contractName} #${tokenId}`] *)
Definition numbered (contractName id : string) : string :=
  (contractName ++ " #" ++ id)%string.

Definition placeholderImage : string :=
  "https://placehold.co/400x400?text=No+Image".

(** The heading of a result card:
    [nft.title !== `${nft.contract.name} #${nft.tokenId}` ? nft.title
     : nft.contract.name]. *)
Definition cardTitle (nft : NFTResult) : string :=
  if negb (String.eqb (title nft) (numbered (name (contract nft)) (tokenId nft)))
  then title nft
  else name (contract nft).

(** [nft.media[0]?.gateway] *)
Definition firstGateway (nft : NFTResult) : option string :=
  match media nft with
  | m :: _ => Some (gateway m)
  | [] => None
  end.

(** The [src] of the image of a card and of the detail view:
    [nft.media[0]?.gateway || 'https://placehold.co/...']. *)
Definition imageSource (nft : NFTResult) : string :=
  JS.or_else (firstGateway nft) placeholderImage.

(** The first of some optional URLs that is present and not the empty
    string, or the empty string when there is none. *)
Fixpoint firstNonEmpty (urls : list (option string)) : string :=
  match urls with
  | [] => ""
  | Some (String c rest) :: _ => String c rest
  | _ :: others => firstNonEmpty others
  end.

(** The second line of the detail view, shown when
    [selectedNFT.title !== `${selectedNFT.contract.name} #${selectedNFT.tokenId}`]. *)
Definition detailSubtitle (nft : NFTResult) : option string :=
  if negb (String.eqb (title nft) (numbered (name (contract nft)) (tokenId nft)))
  then Some (title nft)
  else None.

(** ** Setters the search itself does not call *)

Definition setSuggestions (v : list SearchSuggestion) (s : State) : State :=
  {| searchQuery := searchQuery s; searchResults := searchResults s;
     selectedNFT := selectedNFT s; isLoading := isLoading s;
     error := error s; suggestions := v;
     showSuggestions := showSuggestions s;
     isLoadingMore := isLoadingMore s; hasMore := hasMore s;
     pageKey := pageKey s;
     currentContractAddress := currentContractAddress s |}.

Definition setSelectedNFT (v : option NFTResult) (s : State) : State :=
  {| searchQuery := searchQuery s; searchResults := searchResults s;
     selectedNFT := v; isLoading := isLoading s;
     error := error s; suggestions := suggestions s;
     showSuggestions := showSuggestions s;
     isLoadingMore := isLoadingMore s; hasMore := hasMore s;
     pageKey := pageKey s;
     currentContractAddress := currentContractAddress s |}.

(** ** Functions with a single request

    [fetchSuggestions] and [getNFTMetadata] await one request each and read
    no state.  Such a function either returns at once after some updates,
    or sends a request and applies updates when it settles. *)
Inductive Settled (D : Type) : Type :=
| FetchRejected (e : Thrown)
| StatusNotOk
| BodyRejected (e : Thrown)
| Body (data : D).

Arguments FetchRejected {D} e.
Arguments StatusNotOk {D}.
Arguments BodyRejected {D} e.
Arguments Body {D} data.

Inductive Single (Req D : Type) : Type :=
| Skip (update : State -> State)
| Ask (r : Req) (k : Settled D -> State -> State).

Arguments Skip {Req D} update.
Arguments Ask {Req D} r k.

(** The request sent, if any. *)
Definition asked {Req D : Type} (p : Single Req D) : option Req :=
  match p with
  | Skip _ => None
  | Ask r _ => Some r
  end.

(** The state once the function has run: with no request, at once; with a
    request, after the rest of the component changed the state by [others]
    while it was pending and it settled as [resp]. *)
Definition settle {Req D : Type} (p : Single Req D)
    (others : State -> State) (resp : Settled D) (s : State) : State :=
  match p with
  | Skip update => update s
  | Ask _ k => k resp (others s)
  end.

(** *** [fetchSuggestions] (the body of the debounced effect) *)
Module Suggest.

Record Contract := {
  name : option string;
  address : string;
  openSeaMetadata_imageUrl : option string
}.

Record Json := { contracts : option (list Contract) }.

Definition format (contract : Contract) : SearchSuggestion :=
  {| suggestion_name := JS.or_else (name contract) "Unknown Collection";
     suggestion_address := address contract;
     thumbnail := openSeaMetadata_imageUrl contract |}.

End Suggest.

(** Every way out of the [try] block other than its last line ends in the
    [catch] block, which empties the suggestions: a rejected fetch, a
    status that is not ok, a body that cannot be read, and a body without
    a [contracts] array ([data.contracts.map] throws). *)
Definition fetchSuggestions (searchQuery : string)
    : Single Request Suggest.Json :=
  if Z.of_nat (String.length searchQuery) <? 2
  then Skip (setSuggestions [])
  else
    Ask (SearchContractMetadata searchQuery 1 5)
      (fun resp s =>
         match resp with
         | FetchRejected _ | StatusNotOk | BodyRejected _ =>
             setSuggestions [] s
         | Body data =>
             match Suggest.contracts data with
             | None => setSuggestions [] s
             | Some contracts =>
                 let formattedSuggestions := map Suggest.format contracts in
                 applyUpdate (setShowSuggestions true)
                   (setSuggestions formattedSuggestions s)
             end
         end).

(** *** [getNFTMetadata] *)
Module Detail.

(** A property value: absent, [null], or a string. *)
Inductive Value : Type :=
| undefined
| null
| str (s : string).

(** The value as [||] and [?.] see it. *)
Definition opt (v : Value) : option string :=
  match v with
  | str s => Some s
  | undefined | null => None
  end.

(** The value inside a template literal. *)
Definition interpolate (v : Value) : string :=
  match v with
  | str s => s
  | undefined => "undefined"
  | null => "null"
  end.

Inductive Request : Type :=
| GetNFTMetadata (contractAddress tokenId : string) (refreshCache : bool).

(** The body of the response, with the properties the function reads;
    [media0_raw_url] is [data.media?.[0]?.raw?.url] and so on. *)
Record Json := {
  contract_address : string;
  contract_name : Value;
  contract_symbol : Value;
  tokenId : string;
  title : Value;
  name : Value;
  description : Value;
  media0_raw_url : Value;
  media0_gateway : Value;
  image_originalUrl : Value;
  image_thumbnailUrl : Value
}.

End Detail.

Definition formatDetail (data : Detail.Json) : NFTResult :=
  {| contract :=
       {| address := Detail.contract_address data;
          name :=
            JS.or_else (Detail.opt (Detail.contract_name data))
              "Unknown Collection";
          symbol := JS.or_else (Detail.opt (Detail.contract_symbol data)) "" |};
     tokenId := Detail.tokenId data;
     title :=
       JS.or_else (Detail.opt (Detail.title data))
         (JS.or_else (Detail.opt (Detail.name data))
            (numbered (Detail.interpolate (Detail.contract_name data))
               (Detail.tokenId data)));
     description :=
       JS.or_else (Detail.opt (Detail.description data))
         "No description available";
     media :=
       [ {| raw :=
              JS.or_else (Detail.opt (Detail.media0_raw_url data))
                (JS.or_else (Detail.opt (Detail.media0_gateway data))
                   (JS.or_else (Detail.opt (Detail.image_originalUrl data))
                      (JS.or_else (Detail.opt (Detail.image_thumbnailUrl data))
                         "")));
            gateway :=
              JS.or_else (Detail.opt (Detail.media0_gateway data))
                (JS.or_else (Detail.opt (Detail.media0_raw_url data))
                   (JS.or_else (Detail.opt (Detail.image_thumbnailUrl data))
                      (JS.or_else (Detail.opt (Detail.image_originalUrl data))
                         ""))) |} ] |}.

(** [err instanceof Error ? err.message : 'An error occurred'] *)
Definition detailErrorMessage (err : Thrown) : string :=
  match err with
  | ErrorObject message => message
  | OtherValue => "An error occurred"
  end.

Definition getNFTMetadata (contractAddress tokenId : string)
    : Single Detail.Request Detail.Json :=
  Ask (Detail.GetNFTMetadata contractAddress tokenId true)
    (fun resp s =>
       match resp with
       | FetchRejected err | BodyRejected err =>
           applyUpdate (setError (Some (detailErrorMessage err))) s
       | StatusNotOk =>
           applyUpdate
             (setError
                (Some (detailErrorMessage
                         (ErrorObject "Failed to fetch NFT metadata")))) s
       | Body data =>
           let formattedNFT := formatDetail data in
           setSelectedNFT (Some formattedNFT) s
       end).

(** ** Further predicates on programs *)

(** The two requests that follow once the contract address is known. *)
Definition pageRequests (pk : option string) (target : string)
    : list Request :=
  [GetContractMetadata target;
   GetNFTsForCollection target true 100 (JS.or_null pk)].

(** Every way the program ends, it has called [setIsLoading(false)] and
    [setIsLoadingMore(false)] since its last [await]; [a] and [b] say
    whether it has done so where the program starts. *)
Fixpoint endsIdle (a b : bool) (p : Prog unit) : Prop :=
  match p with
  | Pure _ => a = true /\ b = true
  | Call u k =>
      endsIdle
        (match u with setIsLoading v => negb v | _ => a end)
        (match u with setIsLoadingMore v => negb v | _ => b end) k
  | Await _ k => forall resp, endsIdle false false (k resp)
  end.

(** The ways a suggestion request can settle that end in the [catch]
    block of [fetchSuggestions]. *)
Definition unusable (resp : Settled Suggest.Json) : bool :=
  match resp with
  | Body data =>
      match Suggest.contracts data with
      | Some _ => false
      | None => true
      end
  | FetchRejected _ | StatusNotOk | BodyRejected _ => true
  end.

(** The message [getNFTMetadata] stores for a request that failed. *)
Definition detailFailure (resp : Settled Detail.Json) : option string :=
  match resp with
  | FetchRejected err | BodyRejected err => Some (detailErrorMessage err)
  | StatusNotOk => Some "Failed to fetch NFT metadata"
  | Body _ => None
  end.

(** * Properties *)

(** ** Numbers *)

Lemma toNumber_exact (z : Z) : Z.abs z < 2 ^ 53 -> JS.toNumber z = JS.Fin z.
Proof.
  intros Hz. unfold JS.toNumber.
  destruct (Z.leb_spec (Z.log2 (Z.abs z)) 52) as [_|Hlog]; [reflexivity|].
  exfalso.
  assert (0 < Z.abs z) as Hpos.
  { destruct (Z.abs z) eqn:E; try lia. simpl in Hlog. lia. }
  pose proof (Z.log2_spec _ Hpos) as [Hlo _].
  assert (2 ^ 53 <= 2 ^ Z.log2 (Z.abs z)) by (apply Z.pow_le_mono_r; lia).
  lia.
Qed.

Lemma toNumber_sign (z : Z) :
  JS.lt0 (JS.toNumber z) = (z <? 0) /\ JS.gt0 (JS.toNumber z) = (0 <? z).
Proof.
  unfold JS.toNumber.
  destruct (Z.leb_spec (Z.log2 (Z.abs z)) 52) as [_|Hlog]; [split; reflexivity|].
  set (a := Z.abs z) in *. set (sh := Z.log2 a - 52).
  assert (0 < a) as Hpos.
  { destruct a eqn:E; try lia. simpl in Hlog. lia. }
  pose proof (Z.log2_spec _ Hpos) as [Hlo _].
  assert (0 < sh) as Hsh by (unfold sh; lia).
  assert (0 < 2 ^ sh) as Hpow by (apply Z.pow_pos_nonneg; lia).
  assert (1 <= Z.shiftr a sh) as Hq.
  { rewrite Z.shiftr_div_pow2 by lia.
    assert (2 ^ sh <= a).
    { etransitivity; [|exact Hlo]. apply Z.pow_le_mono_r; unfold sh; lia. }
    apply Z.div_le_lower_bound; lia. }
  match goal with
  | |- context [Z.shiftl ?q' sh] => set (q := q')
  end.
  assert (1 <= q) as Hq'.
  { unfold q. repeat match goal with |- context [if ?c then _ else _] => destruct c end; lia. }
  assert (0 < Z.shiftl q sh) as Hm.
  { rewrite Z.shiftl_mul_pow2 by lia. nia. }
  destruct (Z.leb_spec (Z.shiftl 1 1024) (Z.shiftl q sh)); simpl.
  - destruct (Z.ltb_spec z 0), (Z.ltb_spec 0 z); simpl; split; try reflexivity; lia.
  - destruct (Z.ltb_spec z 0), (Z.ltb_spec 0 z); lia.
Qed.

Lemma gt0_sub (x y : JS.Number) :
  x <> JS.NaN -> y <> JS.NaN -> JS.gt0 (JS.sub x y) = negb (JS.le x y).
Proof.
  intros Hx Hy.
  destruct x as [|[]|a], y as [|[]|b]; try congruence; try reflexivity.
  simpl. destruct (toNumber_sign (a - b)) as [_ ->].
  destruct (Z.ltb_spec 0 (a - b)), (Z.leb_spec a b); simpl; try reflexivity; lia.
Qed.

Lemma le_total (x y : JS.Number) :
  x <> JS.NaN -> y <> JS.NaN -> JS.le x y = false -> JS.le y x = true.
Proof.
  destruct x as [|[]|a], y as [|[]|b]; simpl; try congruence.
  intros _ _ H. apply Z.leb_le. apply Z.leb_gt in H. lia.
Qed.

Lemma le_trans (x y z : JS.Number) :
  JS.le x y = true -> JS.le y z = true -> JS.le x z = true.
Proof.
  destruct x as [|[]|a], y as [|[]|b], z as [|[]|c]; simpl; try congruence.
  intros H1 H2. apply Z.leb_le. apply Z.leb_le in H1, H2. lia.
Qed.

(** ** Deduplication by [tokenId] *)

Lemma hasTokenId_true (t : string) (x : NFTResult) :
  hasTokenId t x = true <-> tokenId x = t.
Proof. unfold hasTokenId. apply String.eqb_eq. Qed.

Lemma hasTokenId_false (t : string) (x : NFTResult) :
  hasTokenId t x = false <-> tokenId x <> t.
Proof. unfold hasTokenId. apply String.eqb_neq. Qed.

Lemma filterUnseen_elem (seen : gset string) (l : list NFTResult) (x : NFTResult) :
  In x (filterUnseen seen l) -> In x l /\ tokenId x ∉ seen.
Proof.
  revert seen. induction l as [|y l IH]; intros seen; simpl; [tauto|].
  case_bool_decide as Hy; simpl.
  - intros Hx. destruct (IH _ Hx) as [Hin Hnot]. split; [tauto|].
    intros Hseen. apply Hnot, elem_of_union. by right.
  - intros [->|Hx]; [tauto|].
    destruct (IH _ Hx) as [Hin Hnot]. split; [tauto|].
    intros Hseen. apply Hnot, elem_of_union. by right.
Qed.

Lemma filterUnseen_NoDup (seen : gset string) (l : list NFTResult) :
  NoDup (tokenIds (filterUnseen seen l)).
Proof.
  revert seen. induction l as [|y l IH]; intros seen; simpl; [constructor|].
  case_bool_decide as Hy; simpl; [apply IH|].
  apply NoDup_cons_2; [|apply IH].
  unfold tokenIds. rewrite list_elem_of_In, in_map_iff. intros (x & Hx & Hin).
  apply filterUnseen_elem in Hin as [_ Hnot]. set_solver.
Qed.

Lemma filterUnseen_seen (seen : gset string) (l : list NFTResult) (t : string) :
  t ∈ seen -> List.filter (hasTokenId t) (filterUnseen seen l) = [].
Proof.
  revert seen. induction l as [|y l IH]; intros seen Ht; simpl; [reflexivity|].
  case_bool_decide as Hy; simpl.
  - apply IH. set_solver.
  - destruct (hasTokenId t y) eqn:E.
    + apply hasTokenId_true in E. congruence.
    + apply IH. set_solver.
Qed.

(** The first item carrying an id is the one that is kept. *)
Lemma filterUnseen_first (seen : gset string) (l : list NFTResult)
    (t : string) (y : NFTResult) :
  t ∉ seen -> List.find (hasTokenId t) l = Some y ->
  List.filter (hasTokenId t) (filterUnseen seen l) = [y].
Proof.
  revert seen. induction l as [|x l IH]; intros seen Ht; simpl; [discriminate|].
  destruct (hasTokenId t x) eqn:E.
  - intros [= ->]. apply hasTokenId_true in E. subst t.
    rewrite bool_decide_eq_false_2 by assumption. simpl.
    rewrite (proj2 (hasTokenId_true _ _) eq_refl).
    f_equal. apply filterUnseen_seen. set_solver.
  - intros Hfind. apply hasTokenId_false in E.
    case_bool_decide as Hx; simpl.
    + apply IH; [|assumption].
      rewrite not_elem_of_union, not_elem_of_singleton. split; congruence.
    + rewrite (proj2 (hasTokenId_false _ _) E).
      apply IH; [|assumption].
      rewrite not_elem_of_union, not_elem_of_singleton. split; congruence.
Qed.

(** ** Sorting *)

Section SortFacts.
Context {A : Type} (comparefn : A -> A -> JS.Number).

Lemma insertSorted_Permutation (x : A) (l : list A) :
  Permutation (insertSorted comparefn x l) (x :: l).
Proof.
  induction l as [|y l IH]; simpl; [reflexivity|].
  destruct (JS.gt0 (comparefn x y)); [|reflexivity].
  rewrite IH. apply perm_swap.
Qed.

Lemma sort_Permutation (l : list A) : Permutation (sort comparefn l) l.
Proof.
  induction l as [|x l IH]; simpl; [reflexivity|].
  rewrite insertSorted_Permutation. by constructor.
Qed.
End SortFacts.

Lemma filter_Permutation_bool {A : Type} (p : A -> bool) (l l' : list A) :
  Permutation l l' -> Permutation (List.filter p l) (List.filter p l').
Proof.
  induction 1 as [|x l l' _ IH|x y l|l l' l'' _ IH1 _ IH2]; simpl.
  - reflexivity.
  - destruct (p x); [by constructor|assumption].
  - destruct (p x), (p y); try reflexivity. apply perm_swap.
  - by etransitivity.
Qed.

Lemma numericOrder_total (x y : NFTResult) :
  numeric x -> numeric y ->
  JS.gt0 (compareTokenId x y) = true -> numericOrder y x.
Proof.
  unfold numeric, numericOrder, compareTokenId. intros Hx Hy.
  rewrite gt0_sub by assumption. intros H.
  apply le_total; try assumption. by destruct (JS.le _ _).
Qed.

Lemma numericOrder_keep (x y : NFTResult) :
  numeric x -> numeric y ->
  JS.gt0 (compareTokenId x y) = false -> numericOrder x y.
Proof.
  unfold numeric, numericOrder, compareTokenId. intros Hx Hy.
  rewrite gt0_sub by assumption. by destruct (JS.le _ _).
Qed.

Lemma insertSorted_sorted (x : NFTResult) (l : list NFTResult) :
  numeric x -> Forall numeric l ->
  StronglySorted numericOrder l ->
  StronglySorted numericOrder (insertSorted compareTokenId x l).
Proof.
  intros Hx Hl Hs. induction Hs as [|y l Hs IH Hy]; simpl.
  - repeat constructor.
  - apply Forall_cons in Hl as [Hny Hl].
    destruct (JS.gt0 (compareTokenId x y)) eqn:E.
    + constructor; [by apply IH|].
      eapply Permutation_Forall;
        [symmetry; apply insertSorted_Permutation|].
      constructor; [by apply numericOrder_total|assumption].
    + pose proof (numericOrder_keep x y Hx Hny E) as Hxy.
      constructor; [by constructor|].
      constructor; [assumption|].
      eapply Forall_impl; [exact Hy|].
      intros z Hyz. unfold numericOrder in *. by eapply le_trans.
Qed.

Lemma sort_sorted (l : list NFTResult) :
  Forall numeric l -> StronglySorted numericOrder (sort compareTokenId l).
Proof.
  induction 1 as [|x l Hx Hl IH]; simpl; [constructor|].
  apply insertSorted_sorted; [assumption| |assumption].
  eapply Permutation_Forall; [symmetry; apply sort_Permutation|assumption].
Qed.

(** ** Running programs *)

(** Delivering further responses resumes the suspended continuation. *)
Lemma exec_app {A : Type} (p : Prog A) (s : State) (pre post : Env) :
  exec p s (pre ++ post) =
  match status (exec p s pre), post with
  | Suspended r k, (others, resp) :: post' =>
      let run := exec (k resp) (others (final (exec p s pre))) post' in
      {| final := final run;
         sent := sent (exec p s pre) ++ sent run;
         status := status run |}
  | _, _ => exec p s pre
  end.
Proof.
  revert s pre. induction p as [a|u k IH|r k IH]; intros s pre; simpl.
  - reflexivity.
  - apply IH.
  - destruct pre as [|[others resp] pre]; simpl.
    + destruct post as [|[others resp] post]; reflexivity.
    + rewrite IH.
      destruct (status (exec (k resp) (others s) pre)) as [a|r' k'] eqn:E;
        [by rewrite E|].
      destruct post as [|[others' resp'] post]; [by rewrite E|reflexivity].
Qed.

Lemma exec_snoc {A : Type} (p : Prog A) (s : State) (pre : Env)
    (others : State -> State) (resp : Response)
    (r : Request) (k : Response -> Prog A) :
  status (exec p s pre) = Suspended r k ->
  exec p s (pre ++ [(others, resp)]) =
  let run := exec (k resp) (others (final (exec p s pre))) [] in
  {| final := final run;
     sent := sent (exec p s pre) ++ sent run;
     status := status run |}.
Proof. intros H. rewrite exec_app, H. reflexivity. Qed.

Lemma everyAwait_exec {A : Type} (P : Request -> (Response -> Prog A) -> Prop)
    (p : Prog A) (s : State) (env : Env)
    (r : Request) (k : Response -> Prog A) :
  everyAwait P p -> status (exec p s env) = Suspended r k ->
  P r k /\ forall resp, everyAwait P (k resp).
Proof.
  revert s env. induction p as [a|u p IH|r' k' IH]; intros s env; simpl.
  - discriminate.
  - apply IH.
  - intros [HP Hk]. destruct env as [|[others resp] env]; simpl.
    + intros [= -> ->]. split; assumption.
    + apply IH, Hk.
Qed.


(** Closed instances are settled by evaluation, one conjunct at a time. *)
Ltac evaluate :=
  cbv zeta;
  repeat match goal with |- _ /\ _ => split end;
  vm_compute; reflexivity.

(** ** Walking through [searchNFTs] *)

(** Unfold the program one construct at a time, splitting on every
    condition it tests and on every response it may receive. *)
Ltac walk :=
  repeat first
    [ progress cbn [everyAwait flagHeld raisesFlag lowersFlag
                    exec bind bindB call fetch json ok ret return_
                    throw try_catch_finally final sent status
                    default from_option negb andb orb]
    | progress unfold try_catch_finally, bindB
    | match goal with
      | |- True => exact I
      | |- true = true => reflexivity
      | |- _ /\ _ => split
      | |- forall _ : Response, _ => intros [? | | ? | ?]
      | |- everyAwait _ ?p =>
          match p with
          | context [if ?c then _ else _] => destruct c eqn:?
          | context [match ?x with _ => _ end] => destruct x eqn:?
          end
      | |- flagHeld _ ?p =>
          match p with
          | context [if ?c then _ else _] => destruct c eqn:?
          | context [match ?x with _ => _ end] => destruct x eqn:?
          end
      end ].


Lemma searchNFTs_emptyPageEnds (pk : option string) (query : string)
    (contractAddress : option string) (resetResults : bool) :
  everyAwait (emptyPageEnds resetResults)
    (searchNFTs pk query contractAddress resetResults).
Proof.
  unfold searchNFTs. walk.
  all: intros Hr page st; try discriminate Hr.
  all: unfold noItems; cbn.
  all: destruct (Api.nfts page) as [[|nft nfts]|]; try discriminate.
  all: intros _; cbn; repeat split; reflexivity.
Qed.

Lemma searchNFTs_pageMerged (pk : option string) (query : string)
    (contractAddress : option string) (resetResults : bool) :
  everyAwait (pageMerged resetResults)
    (searchNFTs pk query contractAddress resetResults).
Proof.
  unfold searchNFTs. walk.
  all: intros Hr; try discriminate Hr.
  all: eexists; intros page st; unfold noItems; cbn.
  all: destruct (Api.nfts page) as [[|nft nfts]|]; try discriminate.
  all: intros _; cbn; repeat split; reflexivity.
  Unshelve. all: exact query.
Qed.

(** ** Failure of a request *)




(** ** An empty page *)

(** C6: when the response to the listing request of a first-page call
    holds no item, the call ends, [error] is the not-found message, the
    results are empty and [hasMore] is false.  The same response to a
    continuation call also sets [hasMore] to false but keeps the results
    and the error it finds, so the two end states differ. *)
Theorem empty_page_ends_call (pk : option string) (query : string)
    (contractAddress : option string) (resetResults : bool)
    (s : State) (pre : Env) (others : State -> State) (data : Api.Json) :
  let call := searchNFTs pk query contractAddress resetResults in
  awaitsListing (exec call s pre) = true ->
  noItems data = true ->
  let before := others (final (exec call s pre)) in
  let run := exec call s (pre ++ [(others, Ok data)]) in
  finished run = true /\
  sent run = sent (exec call s pre) /\
  hasMore (final run) = false /\
  (resetResults = true ->
     error (final run) = Some "No NFTs found in this collection" /\
     searchResults (final run) = []) /\
  (resetResults = false ->
     error (final run) = error before /\
     searchResults (final run) = searchResults before).
Proof.
  intros call Hlist Hnone before run.
  unfold awaitsListing, awaited in Hlist.
  destruct (status (exec call s pre)) as [|r k] eqn:Hst; [discriminate|].
  destruct (everyAwait_exec _ _ _ _ _ _
              (searchNFTs_emptyPageEnds pk query contractAddress resetResults)
              Hst) as [Hk _].
  specialize (Hk Hlist data before Hnone). cbv zeta in Hk.
  destruct Hk as (Hfin & Hsent & Hmore & Herr & Hres & _).
  subst run. rewrite (exec_snoc _ _ _ _ _ _ _ Hst). cbn [final sent status].
  fold before. unfold finished. cbn [status]. rewrite Hfin, Hsent, app_nil_r.
  do 3 (split; [first [reflexivity|assumption]|]).
  split; intros ->; (split; [exact Herr|exact Hres]).
Qed.

Lemma empty_page_ends_call_witness :
  let call := searchNFTs None "Azuki" (Some Example.azuki) true in
  let pre := [(id, Ok (Example.metadata (Some "Azuki")))] in
  let data := Example.page Example.azuki [] None in
  let run := exec call Example.browsing (pre ++ [(id, Ok data)]) in
  awaitsListing (exec call Example.browsing pre) = true /\
  noItems data = true /\
  finished run = true /\
  hasMore (final run) = false /\
  error (final run) = Some "No NFTs found in this collection" /\
  searchResults (final run) = [].
Proof.
  intros call pre data run.
  destruct (empty_page_ends_call None "Azuki" (Some Example.azuki) true
              Example.browsing pre id data eq_refl eq_refl)
    as (Hfin & _ & Hmore & Hfirst & _).
  destruct (Hfirst eq_refl) as [Herr Hres].
  repeat split; assumption.
Defined.

(** ** The guard, the reset and the resolution of the address *)

(** C10: with an empty query and no contract address (absent or the empty
    string) [searchNFTs] returns at once: whatever responses are on offer,
    nothing is sent and the state is the one it was called in. *)
Theorem empty_search_is_noop (pk : option string) (resetResults : bool)
    (s : State) (env : Env) :
  exec (searchNFTs pk "" None resetResults) s env
    = {| final := s; sent := []; status := Finished tt |}
  /\ exec (searchNFTs pk "" (Some "") resetResults) s env
    = {| final := s; sent := []; status := Finished tt |}.
Proof. split; reflexivity. Qed.

Lemma searchNFTs_reset_sync (pk : option string) (query : string)
    (contractAddress : option string) (s : State) :
  JS.truthy query || JS.truthy_opt contractAddress = true ->
  let run := exec (searchNFTs pk query contractAddress true) s [] in
  suspended run = true /\
  searchResults (final run) = [] /\
  pageKey (final run) = None /\
  hasMore (final run) = true.
Proof.
  intros Hguard. unfold searchNFTs.
  replace (negb (JS.truthy query) && negb (JS.truthy_opt contractAddress))
    with false
    by (destruct (JS.truthy query), (JS.truthy_opt contractAddress);
        simpl in *; congruence).
  unfold try_catch_finally, bindB.
  cbn [bind call exec].
  destruct (JS.truthy_opt contractAddress); cbn [negb].
  - cbn [bind ret].
    destruct (JS.truthy (default "" contractAddress));
      cbn; repeat split; reflexivity.
  - destruct (JS.isAddress query); cbn [bind ret fetch].
    + destruct (JS.truthy query); cbn; repeat split; reflexivity.
    + cbn; repeat split; reflexivity.
Qed.

(** C7: a [searchNFTs] call with [resetResults] true and something to
    search for has, by the time it first awaits, emptied the results, set
    the page key to null and set [hasMore] to true, whatever the state was;
    so has the component after the Enter key or the Search button
    ([Submit]) and after picking a suggestion or a popular collection
    ([Pick]), whatever was in flight. *)
Theorem new_search_resets (pk : option string) (query : string)
    (contractAddress : option string) (s : State) (w : World)
    (name address : string) :
  JS.truthy query || JS.truthy_opt contractAddress = true ->
  JS.truthy name || JS.truthy address = true ->
  JS.truthy (searchQuery (state w)) = true ->
  let run := exec (searchNFTs pk query contractAddress true) s [] in
  let picked := state (step w (Pick name address)) in
  let submitted := state (step w Submit) in
  (suspended run = true /\ searchResults (final run) = []
   /\ pageKey (final run) = None /\ hasMore (final run) = true)
  /\ (searchResults picked = [] /\ pageKey picked = None
      /\ hasMore picked = true)
  /\ (searchResults submitted = [] /\ pageKey submitted = None
      /\ hasMore submitted = true).
Proof.
  intros Hcall Hpick Hsubmit run picked submitted.
  split; [by apply searchNFTs_reset_sync|]. split.
  - subst picked. cbn [step handle launch render state bind call exec].
    by apply (searchNFTs_reset_sync (pageKey (state w)) name (Some address)).
  - subst submitted. cbn [step handle launch render state].
    apply (searchNFTs_reset_sync (pageKey (state w))
             (searchQuery (state w)) None).
    by rewrite Hsubmit.
Qed.

Lemma new_search_resets_witness :
  let run := exec (searchNFTs (Some "page-2") "Doodles" (Some Example.doodles) true)
               Example.browsing [] in
  let w := {| state := Example.browsing;
              loadMoreClosure := capture Example.browsing;
              inflight := [];
              network := [] |} in
  let picked := state (step w (Pick "Doodles" Example.doodles)) in
  let submitted := state (step w Submit) in
  (suspended run = true /\ searchResults (final run) = []
   /\ pageKey (final run) = None /\ hasMore (final run) = true)
  /\ (searchResults picked = [] /\ pageKey picked = None
      /\ hasMore picked = true)
  /\ (searchResults submitted = [] /\ pageKey submitted = None
      /\ hasMore submitted = true).
Proof.
  intros run w picked submitted.
  apply (new_search_resets (Some "page-2") "Doodles" (Some Example.doodles)
           Example.browsing w "Doodles" Example.doodles);
    reflexivity.
Defined.

Lemma isAddress_truthy (query : string) :
  JS.isAddress query = true -> JS.truthy query = true.
Proof. destruct query; [discriminate|reflexivity]. Qed.

Lemma or_else_self (a : string) : JS.or_else (Some a) "" = a.
Proof. by destruct a. Qed.

(** C3 (as the code has it): the query is taken as the contract address
    exactly when it matches [^0x[a-fA-F0-9]{40}$] without regard to case,
    the [0x] prefix being required.  A query that matches is sent to the
    contract-metadata and listing requests as it is and no name search is
    sent; any other non-empty query starts with a name search for it. *)
Theorem address_or_name (pk : option string) (query : string)
    (resetResults : bool) (s : State) (env : Env) :
  JS.truthy query = true ->
  let run := exec (searchNFTs pk query None resetResults) s env in
  if JS.isAddress query then
    Forall (fun r => isNameSearch r = false) (sent run)
    /\ (sent run = [GetContractMetadata query]
        \/ sent run = [GetContractMetadata query;
                       GetNFTsForCollection query true 100 (JS.or_null pk)])
  else
    exists more, sent run = SearchContractMetadata query 1 1 :: more.
Proof.
  intros Hq run. subst run. unfold searchNFTs. rewrite Hq.
  unfold try_catch_finally, bindB.
  destruct (JS.isAddress query) eqn:Haddr.
  - assert (forall l,
              l = [GetContractMetadata query]
              \/ l = [GetContractMetadata query;
                      GetNFTsForCollection query true 100 (JS.or_null pk)] ->
              Forall (fun r => isNameSearch r = false) l /\
              (l = [GetContractMetadata query]
               \/ l = [GetContractMetadata query;
                       GetNFTsForCollection query true 100 (JS.or_null pk)]))
      as Hshape.
    { intros l Hl. split; [|exact Hl].
      destruct Hl as [-> | ->]; repeat constructor. }
    apply Hshape. clear Hshape.
    destruct resetResults; cbn [negb andb JS.truthy_opt bind call exec ret fetch];
      rewrite ?Hq; cbn [bind call exec ret fetch].
    all: rewrite or_else_self.
    all: destruct env as [|[o1 [e| |e|meta]] env]; cbn; auto.
    all: destruct env as [|[o2 [e| |e|page]] env]; cbn; auto.
    all: destruct (Api.nfts page) as [[|nft nfts]|]; cbn; auto.
  - destruct resetResults; cbn [negb andb JS.truthy_opt bind call exec ret fetch];
      cbn [bind call exec ret fetch].
    all: destruct env as [|[o1 r1] env]; cbn [exec sent]; eauto.
Qed.

Lemma address_or_name_witness :
  let punks := "0xb47e3cd837dDF8e4c57F05d70Ab865de6e193BBB" in
  let byAddress := exec (searchNFTs None punks None true) initialState [] in
  let byName := exec (searchNFTs None "CryptoPunks" None true) initialState [] in
  (Forall (fun r => isNameSearch r = false) (sent byAddress)
   /\ (sent byAddress = [GetContractMetadata punks]
       \/ sent byAddress = [GetContractMetadata punks;
                            GetNFTsForCollection punks true 100 (JS.or_null None)]))
  /\ exists more, sent byName = SearchContractMetadata "CryptoPunks" 1 1 :: more.
Proof.
  intros punks byAddress byName. split.
  - exact (address_or_name None punks true initialState [] eq_refl).
  - exact (address_or_name None "CryptoPunks" true initialState [] eq_refl).
Defined.

(** C3, the claim as written fails: forty hexadecimal characters without
    the [0x] prefix match the pattern of the specification, yet the code
    does not take them as an address and sends a name search for them. *)
Lemma address_without_prefix_is_searched_by_name :
  let query := "b47e3cd837dDF8e4c57F05d70Ab865de6e193BBB" in
  specAddressPattern query = true
  /\ JS.isAddress query = false
  /\ sent (exec (searchNFTs None query None true) initialState [])
     = [SearchContractMetadata query 1 1].
Proof. evaluate. Qed.

(** The calls that follow a name search with a match, one response at a
    time: the states in which the responses arrive are arbitrary. *)
Lemma after_name_search (pk : option string) (query : string)
    (resetResults : bool) (s : State) (o0 : State -> State)
    (found : Api.Json) (first : Api.FoundContract)
    (rest : list Api.FoundContract) :
  JS.truthy query = true ->
  JS.isAddress query = false ->
  Api.contracts found = Some (first :: rest) ->
  let call := searchNFTs pk query None resetResults in
  let resolved := Api.found_address first in
  let listing := GetNFTsForCollection resolved true 100 (JS.or_null pk) in
  exists k1,
    status (exec call s [(o0, Ok found)])
      = Suspended (GetContractMetadata resolved) k1
    /\ sent (exec call s [(o0, Ok found)])
       = [SearchContractMetadata query 1 1; GetContractMetadata resolved]
    /\ (JS.truthy resolved = true ->
        currentContractAddress (final (exec call s [(o0, Ok found)]))
          = Some resolved)
    /\ forall meta st, exists k2,
         status (exec (k1 (Ok meta)) st []) = Suspended listing k2
         /\ sent (exec (k1 (Ok meta)) st []) = [listing]
         /\ final (exec (k1 (Ok meta)) st []) = st
         /\ forall page st2,
              noItems page = false ->
              sent (exec (k2 (Ok page)) st2 []) = []
              /\ searchResults (final (exec (k2 (Ok page)) st2 []))
                 = mergeResults resetResults
                     (map (formatNFT
                             (JS.or_else (Api.contractMetadata_name meta) query))
                        (default [] (Api.nfts page)))
                     (searchResults st2).
Proof.
  intros Hq Haddr Hfound call resolved listing. subst call listing resolved.
  unfold searchNFTs. rewrite Hq, Haddr. unfold try_catch_finally, bindB, noItems.
  cbn [negb andb JS.truthy_opt].
  destruct resetResults;
    cbn [bind call exec ret fetch json ok negb final sent status].
  all: rewrite Hfound; cbn [bind ret].
  all: destruct (JS.truthy (Api.found_address first)) eqn:Ht.
  all: cbn [bind call exec ret fetch json ok negb final sent status].
  all: rewrite or_else_self.
  all: eexists; split; [reflexivity|]; split; [reflexivity|].
  all: split; [first [reflexivity | discriminate]|].
  all: intros meta st.
  all: cbn [bind call exec ret fetch json ok negb final sent status].
  all: eexists; split; [reflexivity|]; split; [reflexivity|].
  all: split; [reflexivity|].
  all: intros page st2.
  all: cbn [bind call exec ret fetch json ok negb final sent status].
  all: destruct (Api.nfts page) as [[|nft nfts]|]; try discriminate.
  all: intros _; cbn; split; reflexivity.
Qed.

(** C8 (as the code has it): a non-empty query that is not an address is
    resolved with one name-search request for it, page 1, page size 1.
    With no match the call ends with the error "Collection not found" and
    empty results.  Otherwise the address of the first match is the
    address of the contract-metadata and listing requests and becomes the
    current contract address; the display name given to the items is the
    name in the contract-metadata response, or the query itself when that
    response has none.  The name of the match is not read. *)
Theorem name_query_resolution (pk : option string) (query : string)
    (resetResults : bool) (s : State) :
  JS.truthy query = true ->
  JS.isAddress query = false ->
  let call := searchNFTs pk query None resetResults in
  (forall env,
     length (List.filter isNameSearch (sent (exec call s env))) = 1%nat
     /\ exists more,
          sent (exec call s env) = SearchContractMetadata query 1 1 :: more)
  /\ (forall others found,
        noMatch found = true ->
        let run := exec call s [(others, Ok found)] in
        finished run = true
        /\ sent run = [SearchContractMetadata query 1 1]
        /\ error (final run) = Some "Collection not found"
        /\ searchResults (final run) = [])
  /\ (forall o0 found first rest o1 meta o2 page,
        Api.contracts found = Some (first :: rest) ->
        noItems page = false ->
        let resolved := Api.found_address first in
        let displayName := JS.or_else (Api.contractMetadata_name meta) query in
        let before := exec call s [(o0, Ok found); (o1, Ok meta)] in
        let run := exec call s [(o0, Ok found); (o1, Ok meta); (o2, Ok page)] in
        sent run = [SearchContractMetadata query 1 1;
                    GetContractMetadata resolved;
                    GetNFTsForCollection resolved true 100 (JS.or_null pk)]
        /\ (JS.truthy resolved = true ->
            currentContractAddress (final (exec call s [(o0, Ok found)]))
              = Some resolved)
        /\ searchResults (final run)
           = mergeResults resetResults
               (map (formatNFT displayName) (default [] (Api.nfts page)))
               (searchResults (o2 (final before)))).
Proof.
  intros Hq Haddr call.
  assert (call =
          searchNFTs pk query None resetResults) as Hcall by reflexivity.
  split; [|split].
  - intros env. subst call. unfold searchNFTs.
    rewrite Hq, Haddr. unfold try_catch_finally, bindB.
    cbn [negb andb JS.truthy_opt].
    destruct resetResults; cbn [bind call exec ret fetch].
    all: destruct env as [|[o0 [e| |e|found]] env]; cbn; eauto.
    all: destruct (Api.contracts found) as [[|first rest]|]; cbn; eauto.
    all: destruct (JS.truthy (Api.found_address first)); cbn.
    all: destruct env as [|[o1 [e| |e|meta]] env]; cbn; eauto.
    all: destruct env as [|[o2 [e| |e|page]] env]; cbn; eauto.
    all: destruct (Api.nfts page) as [[|nft nfts]|]; cbn; eauto.
  - intros others found Hnone. subst call. unfold searchNFTs, noMatch in *.
    rewrite Hq, Haddr. unfold try_catch_finally, bindB.
    cbn [negb andb JS.truthy_opt].
    destruct resetResults; cbn [bind call exec ret fetch json ok negb].
    all: destruct (Api.contracts found) as [[|first rest]|];
      try discriminate Hnone.
    all: cbn; repeat split; reflexivity.
  - intros o0 found first rest o1 meta o2 page Hfound Hpage.
    destruct (after_name_search pk query resetResults s o0 found first rest
                Hq Haddr Hfound) as (k1 & Hst1 & Hsent1 & Hcca & Hk1).
    fold call in Hst1, Hsent1, Hcca.
    set (st1 := final (exec call s [(o0, Ok found)])) in *.
    destruct (Hk1 meta (o1 st1)) as (k2 & Hst2 & Hsent2 & Hfinal2 & Hk2).
    set (resolved := Api.found_address first) in *.
    set (listing := GetNFTsForCollection resolved true 100 (JS.or_null pk)) in *.
    assert (exec call s [(o0, Ok found); (o1, Ok meta)]
            = {| final := o1 st1;
                 sent := [SearchContractMetadata query 1 1;
                          GetContractMetadata resolved; listing];
                 status := Suspended listing k2 |}) as Hrun2.
    { change [(o0, Ok found); (o1, Ok meta)]
        with ([(o0, Ok found)] ++ [(o1, Ok meta)]).
      rewrite (exec_snoc _ _ _ _ _ _ _ Hst1). cbv zeta. fold st1.
      rewrite Hst2, Hsent2, Hfinal2, Hsent1. reflexivity. }
    assert (status (exec call s [(o0, Ok found); (o1, Ok meta)])
            = Suspended listing k2) as Hst by (rewrite Hrun2; reflexivity).
    cbv zeta.
    change [(o0, Ok found); (o1, Ok meta); (o2, Ok page)]
      with ([(o0, Ok found); (o1, Ok meta)] ++ [(o2, Ok page)]).
    rewrite (exec_snoc _ _ _ _ _ _ _ Hst). rewrite !Hrun2.
    cbn [final sent status].
    destruct (Hk2 page (o2 (o1 st1)) Hpage) as [Hsent3 Hres3].
    rewrite Hsent3, Hres3.
    split; [reflexivity|]. split; [exact Hcca|reflexivity].
Qed.

Lemma name_query_resolution_witness :
  let found := Example.found [("Doodles", Example.doodles)] in
  let meta := Example.metadata (Some "Doodles") in
  let page := Example.page Example.doodles ["7"; "3"] (Some "next") in
  let call := searchNFTs None "doodle" None true in
  let run := exec call initialState [(id, Ok found); (id, Ok meta); (id, Ok page)] in
  sent run = [SearchContractMetadata "doodle" 1 1;
              GetContractMetadata Example.doodles;
              GetNFTsForCollection Example.doodles true 100 None]
  /\ tokenIds (searchResults (final run)) = ["3"; "7"]
  /\ map (fun nft => name (contract nft)) (searchResults (final run))
     = ["Doodles"; "Doodles"].
Proof.
  intros found meta page call run.
  destruct (name_query_resolution None "doodle" true initialState
              eq_refl eq_refl) as (_ & _ & Hrun).
  destruct (Hrun id found _ _ id meta id page eq_refl eq_refl)
    as (Hsent & _ & Hres).
  split; [exact Hsent|].
  subst run call. rewrite Hres. split; reflexivity.
Defined.

(** C8, the claim as written fails: the display name is not the name of
    the first match.  Here the match is named "Bored Ape Yacht Club", the
    contract-metadata response has no name, and the items are named after
    the query. *)
Lemma display_name_is_not_the_match_name :
  let bayc := "0xBC4CA0EdA7647A8aB7C2061c2E118A18a936f13D" in
  let found := Example.found [("Bored Ape Yacht Club", bayc)] in
  let meta := Example.metadata None in
  let page := Example.page bayc ["1"] None in
  let run := exec (searchNFTs None "bored ape" None true) initialState
               [(id, Ok found); (id, Ok meta); (id, Ok page)] in
  map Api.found_name (default [] (Api.contracts found))
    = [Some "Bored Ape Yacht Club"]
  /\ map (fun nft => name (contract nft)) (searchResults (final run))
     = ["bored ape"]
  /\ map title (searchResults (final run)) = ["bored ape #1"].
Proof. evaluate. Qed.

(** ** The merged results *)

Lemma mergeResults_Permutation (resetResults : bool)
    (formattedNFTs prevResults : list NFTResult) :
  Permutation (mergeResults resetResults formattedNFTs prevResults)
    (filterUnseen ∅
       (if resetResults then formattedNFTs else prevResults ++ formattedNFTs)).
Proof. unfold mergeResults. apply sort_Permutation. Qed.

Lemma mergeResults_NoDup (resetResults : bool)
    (formattedNFTs prevResults : list NFTResult) :
  NoDup (tokenIds (mergeResults resetResults formattedNFTs prevResults)).
Proof.
  unfold tokenIds.
  rewrite (Permutation_map tokenId
             (mergeResults_Permutation resetResults formattedNFTs prevResults)).
  apply filterUnseen_NoDup.
Qed.

Lemma mergeResults_sorted (resetResults : bool)
    (formattedNFTs prevResults : list NFTResult) :
  Forall numeric
    (if resetResults then formattedNFTs else prevResults ++ formattedNFTs) ->
  StronglySorted numericOrder
    (mergeResults resetResults formattedNFTs prevResults).
Proof.
  intros Hnum. unfold mergeResults. apply sort_sorted.
  rewrite Forall_forall in *. intros x Hx. apply Hnum.
  rewrite list_elem_of_In in *. by apply filterUnseen_elem in Hx as [Hx _].
Qed.

Lemma safeInteger_numericOrder (a b : NFTResult) :
  safeInteger a -> safeInteger b -> numericOrder a b -> exactOrder a b.
Proof.
  unfold safeInteger, numericOrder, exactOrder, JS.parseInt.
  destruct (JS.parseIntExact (tokenId a)) as [x|]; [|tauto].
  destruct (JS.parseIntExact (tokenId b)) as [y|]; [|tauto].
  intros Hx Hy. rewrite !toNumber_exact by assumption. simpl.
  apply Z.leb_le.
Qed.

Lemma sorted_exact (l : list NFTResult) :
  Forall safeInteger l -> StronglySorted numericOrder l ->
  StronglySorted exactOrder l.
Proof.
  intros Hsafe Hs. induction Hs as [|x l Hs IH Hx]; [constructor|].
  apply Forall_cons in Hsafe as [Hsx Hsl].
  constructor; [by apply IH|].
  rewrite Forall_forall in *. intros y Hy.
  apply safeInteger_numericOrder; auto.
Qed.

(** C1 (as the code has it): after a listing response with items has been
    merged, no two results share a [tokenId], whatever the ids are; and
    when every id that went into the merge (the ids of the page and, for a
    continuation, of the results already there) is read as a number by
    [parseInt], the results are in non-decreasing order of those numbers,
    which is the order of the integers the ids denote when all of them
    are below 2^53. *)
Theorem merged_results_nodup_sorted (pk : option string) (query : string)
    (contractAddress : option string) (resetResults : bool)
    (s : State) (pre : Env) (others : State -> State) (data : Api.Json) :
  let call := searchNFTs pk query contractAddress resetResults in
  awaitsListing (exec call s pre) = true ->
  noItems data = false ->
  let before := others (final (exec call s pre)) in
  let results :=
    searchResults (final (exec call s (pre ++ [(others, Ok data)]))) in
  NoDup (tokenIds results)
  /\ (Forall numericId
        (map Api.tokenId (default [] (Api.nfts data))
         ++ (if resetResults then [] else tokenIds (searchResults before))) ->
      StronglySorted numericOrder results
      /\ (Forall safeInteger results -> StronglySorted exactOrder results)).
Proof.
  intros call Hlist Hitems before results.
  unfold awaitsListing, awaited in Hlist.
  destruct (status (exec call s pre)) as [|r k] eqn:Hst; [discriminate|].
  destruct (everyAwait_exec _ _ _ _ _ _
              (searchNFTs_pageMerged pk query contractAddress resetResults)
              Hst) as [Hk _].
  destruct (Hk Hlist) as [contractName Hrun].
  specialize (Hrun data before Hitems). cbv zeta in Hrun.
  destruct Hrun as (_ & _ & Hres & _).
  assert (results =
          mergeResults resetResults
            (map (formatNFT contractName) (default [] (Api.nfts data)))
            (searchResults before)) as ->.
  { subst results. rewrite (exec_snoc _ _ _ _ _ _ _ Hst). exact Hres. }
  split; [apply mergeResults_NoDup|]. intros Hnum.
  assert (StronglySorted numericOrder
            (mergeResults resetResults
               (map (formatNFT contractName) (default [] (Api.nfts data)))
               (searchResults before))) as Hsorted.
  { apply mergeResults_sorted.
    apply Forall_app in Hnum as [Hpage Hprev].
    assert (Forall numeric
              (map (formatNFT contractName) (default [] (Api.nfts data))))
      as Hpage'.
    { apply Forall_forall. intros x Hx.
      apply list_elem_of_In, in_map_iff in Hx as (n & <- & Hn).
      rewrite Forall_forall in Hpage. apply Hpage.
      apply list_elem_of_In, in_map_iff. eauto. }
    destruct resetResults; [exact Hpage'|].
    apply Forall_app. split; [|exact Hpage'].
    apply Forall_forall. intros x Hx.
    rewrite Forall_forall in Hprev. apply Hprev.
    apply list_elem_of_In, in_map_iff. apply list_elem_of_In in Hx. eauto. }
  split; [exact Hsorted|].
  intros Hsafe. by apply sorted_exact.
Qed.

Lemma merged_results_nodup_sorted_witness :
  let call := searchNFTs (Some "page-2") Example.azuki (Some Example.azuki) false in
  let pre := [(id, Ok (Example.metadata (Some "Azuki")))] in
  let data := Example.page Example.azuki ["10"; "2"; "3"] None in
  let words := Example.page Example.azuki ["b"; "2"; "a"; "b"] None in
  let results :=
    searchResults (final (exec call Example.browsing (pre ++ [(id, Ok data)]))) in
  let unordered :=
    searchResults (final (exec call Example.browsing (pre ++ [(id, Ok words)]))) in
  tokenIds results = ["1"; "2"; "3"; "10"]
  /\ NoDup (tokenIds results)
  /\ StronglySorted numericOrder results
  /\ StronglySorted exactOrder results
  /\ NoDup (tokenIds unordered).
Proof.
  intros call pre data words results unordered. split; [reflexivity|].
  assert (Forall numericId
            (map Api.tokenId (default [] (Api.nfts data))
             ++ tokenIds (searchResults
                            (id (final (exec call Example.browsing pre))))))
    as Hnum by (repeat constructor; discriminate).
  destruct (merged_results_nodup_sorted (Some "page-2") Example.azuki
              (Some Example.azuki) false Example.browsing pre id data
              eq_refl eq_refl) as (Hnodup & Hsorted).
  destruct (Hsorted Hnum) as (Hnumeric & Hexact).
  split; [exact Hnodup|]. split; [exact Hnumeric|]. split.
  - apply Hexact.
    match goal with
    | |- Forall _ ?l =>
        let v := eval vm_compute in l in
        assert (l = v) as -> by (vm_compute; reflexivity)
    end.
    repeat (apply List.Forall_cons; [vm_compute; reflexivity|]).
    apply List.Forall_nil.
  - exact (proj1 (merged_results_nodup_sorted (Some "page-2") Example.azuki
                    (Some Example.azuki) false Example.browsing pre id words
                    eq_refl eq_refl)).
Defined.

(** C1, the claim as written fails: two ids above 2^53 that [parseInt]
    rounds to the same double compare as equal, so the sort leaves them in
    the order of arrival, here the larger integer first. *)
Lemma large_ids_are_not_in_numeric_order :
  let call := searchNFTs None "Azuki" (Some Example.azuki) true in
  let data :=
    Example.page Example.azuki ["9007199254740993"; "9007199254740992"] None in
  let results :=
    searchResults
      (final (exec call initialState
                [(id, Ok (Example.metadata (Some "Azuki"))); (id, Ok data)])) in
  tokenIds results = ["9007199254740993"; "9007199254740992"]
  /\ map JS.parseIntExact (tokenIds results)
     = [Some 9007199254740993; Some 9007199254740992]
  /\ ~ Sorted exactOrder results.
Proof.
  intros call data results.
  split; [vm_compute; reflexivity|]. split; [vm_compute; reflexivity|].
  intros Hsorted.
  assert (results
          = map (formatNFT "Azuki")
              (map (Example.token Example.azuki)
                 ["9007199254740993"; "9007199254740992"])) as Heq
    by (vm_compute; reflexivity).
  rewrite Heq in Hsorted. cbn [map] in Hsorted.
  apply Sorted_inv in Hsorted as [_ Hhd]. apply HdRel_inv in Hhd.
  vm_compute in Hhd. apply Hhd. reflexivity.
Qed.

(** ** First occurrence wins *)

Lemma find_filter {A : Type} (p : A -> bool) (l : list A) (y : A) :
  List.filter p l = [y] -> List.find p l = Some y.
Proof.
  induction l as [|x l IH]; simpl; [discriminate|].
  destruct (p x); [by intros [= ->]|exact IH].
Qed.

Lemma find_app_l {A : Type} (p : A -> bool) (l l' : list A) (y : A) :
  List.find p l = Some y -> List.find p (l ++ l') = Some y.
Proof.
  induction l as [|x l IH]; simpl; [discriminate|].
  destruct (p x); [trivial|exact IH].
Qed.

Lemma mergeResults_first (resetResults : bool)
    (formattedNFTs prevResults : list NFTResult) (t : string) (y : NFTResult) :
  List.find (hasTokenId t)
    (if resetResults then formattedNFTs else prevResults ++ formattedNFTs)
    = Some y ->
  List.filter (hasTokenId t)
    (mergeResults resetResults formattedNFTs prevResults) = [y].
Proof.
  intros Hfind. apply Permutation_length_1_inv.
  rewrite <- (filterUnseen_first ∅ _ t y (not_elem_of_empty t) Hfind).
  symmetry. apply filter_Permutation_bool, mergeResults_Permutation.
Qed.

(** C2: when a page [P1] has been merged (as a first page, or as a
    continuation into earlier results) and a page [P2] is then merged
    into the result, the only item of the final results with a given
    [tokenId] is the first item that carried it: for an id that occurs in
    a first page [P1], the first item of [P1] with that id, whatever [P2]
    sends for it. *)
Theorem first_occurrence_wins (resetResults : bool)
    (P1 P2 prevResults : list NFTResult) (t : string) (y : NFTResult) :
  List.find (hasTokenId t)
    (if resetResults then P1 else prevResults ++ P1) = Some y ->
  let accumulated := mergeResults resetResults P1 prevResults in
  let final := mergeResults false P2 accumulated in
  List.filter (hasTokenId t) final = [y]
  /\ forall x, In x final -> tokenId x = t -> x = y.
Proof.
  intros Hfind accumulated final.
  assert (List.filter (hasTokenId t) final = [y]) as Hfilter.
  { apply mergeResults_first, find_app_l, find_filter.
    by apply mergeResults_first. }
  split; [exact Hfilter|].
  intros x Hin Ht.
  assert (In x (List.filter (hasTokenId t) final)) as Hx
    by (apply filter_In; split; [exact Hin|by apply hasTokenId_true]).
  rewrite Hfilter in Hx. destruct Hx as [->|[]]. reflexivity.
Qed.

Lemma first_occurrence_wins_witness :
  let P1 := [Example.item "2" "from page 1"; Example.item "1" "from page 1"] in
  let P2 := [Example.item "3" "from page 2"; Example.item "2" "from page 2"] in
  let final := mergeResults false P2 (mergeResults true P1 []) in
  map title final = ["from page 1"; "from page 1"; "from page 2"]
  /\ List.filter (hasTokenId "2") final = [Example.item "2" "from page 1"]
  /\ forall x, In x final -> tokenId x = "2" ->
               x = Example.item "2" "from page 1".
Proof.
  intros P1 P2 final. split; [reflexivity|].
  exact (first_occurrence_wins true P1 P2 [] "2"
           (Example.item "2" "from page 1") eq_refl).
Defined.

(** ** One request at a time *)

Lemma searchNFTs_flagHeld (pk : option string) (query : string)
    (contractAddress : option string) (resetResults : bool) :
  flagHeld false (searchNFTs pk query contractAddress resetResults).
Proof. unfold searchNFTs. walk. Qed.

Lemma loading_applyUpdate (u : Update) (s : State) (held : bool) :
  (held = true -> loading s = true) ->
  (if raisesFlag u then true else if lowersFlag u then false else held) = true ->
  loading (applyUpdate u s) = true.
Proof.
  unfold loading. intros Hs.
  destruct u as [v|f|[]|v|v|[]|v|v|v]; cbn; intros H;
    try discriminate; try (by apply Hs);
    by destruct (isLoading s), (isLoadingMore s).
Qed.

Lemma flagHeld_exec (p : Prog unit) (held : bool) (s : State) :
  flagHeld held p -> (held = true -> loading s = true) ->
  match status (exec p s []) with
  | Suspended r k =>
      loading (final (exec p s [])) = true
      /\ forall resp, flagHeld true (k resp)
  | Finished _ => True
  end.
Proof.
  revert held s. induction p as [a|u k IH|r k IH]; intros held s; cbn.
  - trivial.
  - intros Hk Hs. eapply IH; [exact Hk|].
    by apply loading_applyUpdate.
  - intros [-> Hk] Hs. split; [by apply Hs|exact Hk].
Qed.

Lemma launch_oneAtATime (p : Prog unit) (held : bool) (w : World) :
  inflight w = [] -> flagHeld held p ->
  (held = true -> loading (state w) = true) ->
  oneAtATime (launch p w).
Proof.
  intros Hnone Hp Hs. pose proof (flagHeld_exec p held (state w) Hp Hs) as H.
  unfold oneAtATime, launch. cbn [inflight state]. rewrite Hnone.
  destruct (status (exec p (state w) [])) as [a|r k]; cbn; [trivial|exact H].
Qed.

Lemma oneAtATime_idle (w : World) :
  oneAtATime w -> loading (state w) = false -> inflight w = [].
Proof.
  unfold oneAtATime. destruct (inflight w) as [|task [|task' rest]].
  - reflexivity.
  - intros [Hl _] Hn. congruence.
  - intros [].
Qed.

Lemma handle_oneAtATime (w : World) (ev : Event) :
  oneAtATime w -> admissible w ev = true -> oneAtATime (handle (state w) w ev).
Proof.
  intros Hw Hadm. destruct ev as [text| |name address| |i resp]; cbn [handle].
  - unfold oneAtATime, launch in *. cbn. rewrite app_nil_r.
    destruct (inflight w) as [|task [|task' rest]]; assumption.
  - apply bool_decide_eq_true in Hadm.
    eapply launch_oneAtATime;
      [exact Hadm|apply searchNFTs_flagHeld|discriminate].
  - apply bool_decide_eq_true in Hadm.
    eapply (launch_oneAtATime _ false); [exact Hadm| |discriminate].
    cbn. apply searchNFTs_flagHeld.
  - destruct (triggerRendered (state w) && negb (isLoading (state w))
              && negb (isLoadingMore (state w)) && hasMore (state w))
      eqn:Hguard; [|exact Hw].
    unfold loadMore.
    destruct (negb (seen_isLoadingMore (loadMoreClosure w))
              && seen_hasMore (loadMoreClosure w)
              && JS.truthy_opt (seen_currentContractAddress (loadMoreClosure w)));
      [|exact Hw].
    eapply launch_oneAtATime;
      [|apply searchNFTs_flagHeld|discriminate].
    apply oneAtATime_idle; [exact Hw|]. unfold loading.
    destruct (isLoading (state w)), (isLoadingMore (state w));
      try reflexivity; by rewrite ?andb_false_r in Hguard.
  - pose proof Hw as Hw'. unfold oneAtATime in Hw'.
    destruct (inflight w) as [|task [|task' rest]] eqn:Hin;
      [exact Hw| |destruct Hw'].
    destruct i as [|i]; cbn [lookup list_lookup]; [|exact Hw].
    destruct Hw' as [Hl Hk].
    eapply (launch_oneAtATime _ true); [reflexivity|apply Hk|].
    intros _. exact Hl.
Qed.

Lemma step_oneAtATime (w : World) (ev : Event) :
  oneAtATime w -> admissible w ev = true -> oneAtATime (step w ev).
Proof.
  intros Hw Hadm. exact (handle_oneAtATime w ev Hw Hadm).
Qed.

Lemma steps_oneAtATime (evs : list Event) (w : World) :
  oneAtATime w -> sequential w evs = true -> oneAtATime (steps w evs).
Proof.
  revert w. induction evs as [|ev evs IH]; intros w Hw Hseq; cbn in *.
  - exact Hw.
  - apply andb_true_iff in Hseq as [Hadm Hseq].
    apply IH; [by apply step_oneAtATime|exact Hseq].
Qed.

Lemma intersect_guarded (seen : State) (w : World) :
  loading seen = true \/ hasMore seen = false ->
  handle seen w Intersect = w.
Proof.
  unfold loading. cbn [handle]. intros [H | H].
  - destruct (isLoading seen), (isLoadingMore seen);
      try discriminate; by rewrite ?andb_false_r.
  - by rewrite H, andb_false_r.
Qed.

(** A run of events with a re-render after each is a run of [step]s, and
    leaves the closures of a render that saw the current state. *)
Lemma acts_rerendered (evs : list Event) (w : World) :
  acts {| page := w; closures := state w |} (rerendered evs)
  = {| page := steps w evs; closures := state (steps w evs) |}.
Proof.
  revert w. induction evs as [|ev evs IH]; intros w; [reflexivity|].
  exact (IH (step w ev)).
Qed.

(** C5 (as the code has it): the continuation trigger is guarded by
    [isLoading], [isLoadingMore] and [hasMore] as the render that made the
    observer's callback saw them, not by a record of what is in flight.
    Delivered to a render that saw [isLoading] or [isLoadingMore] set or
    [hasMore] false, the trigger does nothing: same state, same requests
    in flight, nothing sent.  When a re-render follows every event and no
    new search is begun while a request is in flight, the closures are
    those of the current state, a request in flight keeps a loading flag
    set, at most one request is in flight at any time, and the trigger
    does nothing while one is in flight or when [hasMore] is false. *)
Theorem continuation_guard (evs : list Event) (seen : State)
    (anywhere : World) :
  sequential initialWorld evs = true ->
  let b := acts initialBrowser (rerendered evs) in
  (loading seen = true \/ hasMore seen = false ->
   handle seen anywhere Intersect = anywhere)
  /\ closures b = state (page b)
  /\ (length (inflight (page b)) <= 1)%nat
  /\ (inflight (page b) <> [] \/ hasMore (state (page b)) = false ->
      act b (Deliver Intersect) = b).
Proof.
  intros Hseq b.
  assert (b = {| page := steps initialWorld evs;
                 closures := state (steps initialWorld evs) |}) as ->
    by apply (acts_rerendered evs initialWorld).
  cbn [page closures act].
  assert (oneAtATime (steps initialWorld evs)) as Hw
    by (by apply steps_oneAtATime).
  split; [apply intersect_guarded|]. split; [reflexivity|]. split.
  - unfold oneAtATime in Hw.
    destruct (inflight (steps initialWorld evs)) as [|task [|task' rest]];
      cbn; [lia|lia|destruct Hw].
  - intros Hguard. f_equal. apply intersect_guarded.
    destruct Hguard as [Hbusy | Hdone]; [left|by right].
    unfold oneAtATime in Hw.
    destruct (inflight (steps initialWorld evs)) as [|task [|task' rest]];
      [congruence|apply Hw|destruct Hw].
Qed.

Lemma continuation_guard_witness :
  let evs := [Pick "Azuki" Example.azuki;
              Respond 0 (Ok (Example.metadata (Some "Azuki")));
              Respond 0 (Ok (Example.page Example.azuki ["1"; "2"]
                               (Some "page-2")));
              Intersect] in
  let b := acts initialBrowser (rerendered evs) in
  sequential initialWorld evs = true
  /\ triggerRendered (closures b) = true
  /\ isLoadingMore (closures b) = true
  /\ hasMore (closures b) = true
  /\ map request (inflight (page b)) = [GetContractMetadata Example.azuki]
  /\ act b (Deliver Intersect) = b.
Proof.
  intros evs b.
  split; [vm_compute; reflexivity|]. split; [vm_compute; reflexivity|].
  split; [vm_compute; reflexivity|]. split; [vm_compute; reflexivity|].
  split; [vm_compute; reflexivity|].
  destruct (continuation_guard evs initialState initialWorld eq_refl)
    as (_ & _ & _ & Hnoop).
  apply Hnoop. left. discriminate.
Defined.

(** C5, the claim as written fails, in two ways.  A second search begun
    while the first is in flight shares the loading flags with it: when
    the first search ends it lowers the flags, and a continuation trigger
    then sends a request although the second search still has one in
    flight.  And within one search, a second trigger delivered before the
    page is rendered again is handled by the same closures as the first:
    they saw no flag set, and a second request is sent while the first is
    in flight. *)
Lemma continuation_sent_while_in_flight :
  let overlapping :=
    acts initialBrowser
      (rerendered
         [Pick "Azuki" Example.azuki;
          Pick "Doodles" Example.doodles;
          Respond 0 (Ok (Example.metadata (Some "Azuki")));
          Respond 1 (Ok (Example.page Example.azuki ["1"] (Some "next")))]) in
  let again := act overlapping (Deliver Intersect) in
  let shown :=
    acts initialBrowser
      (rerendered
         [Pick "Azuki" Example.azuki;
          Respond 0 (Ok (Example.metadata (Some "Azuki")));
          Respond 0 (Ok (Example.page Example.azuki ["1"; "2"]
                           (Some "page-2")))]) in
  let once := act shown (Deliver Intersect) in
  let twice := act once (Deliver Intersect) in
  (map request (inflight (page overlapping))
   = [GetContractMetadata Example.doodles]
   /\ hasMore (state (page overlapping)) = true
   /\ map request (inflight (page again))
      = [GetContractMetadata Example.doodles;
         GetContractMetadata Example.doodles]
   /\ network (page again)
      = network (page overlapping) ++ [GetContractMetadata Example.doodles]
   /\ isLoadingMore (state (page again)) = true)
  /\ (map request (inflight (page shown)) = []
      /\ map request (inflight (page once))
         = [GetContractMetadata Example.azuki]
      /\ isLoadingMore (state (page once)) = true
      /\ map request (inflight (page twice))
         = [GetContractMetadata Example.azuki;
            GetContractMetadata Example.azuki]
      /\ network (page twice)
         = network (page shown)
           ++ [GetContractMetadata Example.azuki;
               GetContractMetadata Example.azuki]).
Proof. evaluate. Qed.

(** ** Responses of an abandoned search *)




(** * Further properties of the component *)

(** ** What is shown for an item *)

Lemma append_nonempty_ne (s t : string) (c : ascii) :
  s <> (s ++ String c t)%string.
Proof.
  induction s as [|a s IH]; simpl; [discriminate|].
  intros [= H]. by apply IH.
Qed.

Lemma or_else_nonempty (a : option string) (b : string) :
  b <> "" -> JS.or_else a b <> "".
Proof. intros Hb. destruct a as [[|c s]|]; simpl; [assumption|discriminate|assumption]. Qed.

(** X1: every item built from a listing response has a title: the title
    of the service if that is not empty, else its name if that is not
    empty, else the collection name followed by [#] and the id; so a title
    is never left empty.  The item keeps the id of the response and the
    collection name it was formatted with. *)
Theorem formatted_title_never_empty (contractName : string) (nft : Api.NFT) :
  let item := formatNFT contractName nft in
  title item <> ""
  /\ ((JS.truthy_opt (Api.title nft) = true
       /\ Some (title item) = Api.title nft)
      \/ (JS.truthy_opt (Api.title nft) = false
          /\ JS.truthy_opt (Api.name nft) = true
          /\ Some (title item) = Api.name nft)
      \/ (JS.truthy_opt (Api.title nft) = false
          /\ JS.truthy_opt (Api.name nft) = false
          /\ title item = numbered contractName (Api.tokenId nft)))
  /\ tokenId item = Api.tokenId nft
  /\ name (contract item) = contractName.
Proof.
  cbn. split; [|split; [|split; reflexivity]].
  - apply or_else_nonempty, or_else_nonempty. unfold numbered.
    destruct contractName; discriminate.
  - destruct (Api.title nft) as [[|c s]|], (Api.name nft) as [[|c' s']|];
      cbn; auto.
Qed.

(** X2: an item built from a listing response has exactly one media
    entry; its [raw] and [gateway] URLs are taken from the same four image
    URLs in different orders: [raw] is the first that is present and not
    empty of the original, thumbnail, png and plain URL, [gateway] the
    first of the thumbnail, png, plain and original URL, each the empty
    string when there is none.  So one is empty exactly when the other is;
    the image shown for the item is its [gateway] URL, or the placeholder
    when that is empty, and never the empty URL. *)
Theorem formatted_media (contractName : string) (nft : Api.NFT) :
  let item := formatNFT contractName nft in
  let url := Api.image_field (Api.image nft) in
  exists m, media item = [m]
            /\ raw m = firstNonEmpty [url Api.originalUrl; url Api.thumbnailUrl;
                                      url Api.pngUrl; url Api.url]
            /\ gateway m = firstNonEmpty [url Api.thumbnailUrl; url Api.pngUrl;
                                          url Api.url; url Api.originalUrl]
            /\ (raw m = "" <-> gateway m = "")
            /\ imageSource item
               = (if String.eqb (gateway m) "" then placeholderImage
                  else gateway m)
            /\ imageSource item <> "".
Proof.
  intros item url. subst item url. eexists. split; [reflexivity|].
  cbn [raw gateway]. unfold imageSource, firstGateway, Api.image_field.
  cbn [media formatNFT gateway].
  destruct (Api.image nft) as [[o t p u]|]; cbn;
    [|split; [reflexivity|]; split; [reflexivity|];
      split; [tauto|]; split; [reflexivity|discriminate]].
  destruct o as [[|? ?]|], t as [[|? ?]|], p as [[|? ?]|], u as [[|? ?]|];
    cbn; (split; [reflexivity|]); (split; [reflexivity|]);
    (split; [split; first [discriminate | reflexivity]|]);
    (split; [reflexivity|discriminate]).
Qed.

(** X3: a card never shows the numbered stand-in title: when an item's
    title is its collection name followed by [#] and its id, the card shows
    the collection name alone.  So an item for which the service gave
    neither title nor name is headed by the collection name. *)
Theorem card_title_hides_numbered_title (x : NFTResult)
    (contractName : string) (nft : Api.NFT) :
  cardTitle x <> numbered (name (contract x)) (tokenId x)
  /\ (JS.truthy_opt (Api.title nft) = false ->
      JS.truthy_opt (Api.name nft) = false ->
      cardTitle (formatNFT contractName nft) = contractName).
Proof.
  split.
  - unfold cardTitle.
    destruct (String.eqb_spec (title x)
                (numbered (name (contract x)) (tokenId x))) as [_|Hne]; cbn.
    + unfold numbered. apply append_nonempty_ne.
    + exact Hne.
  - intros Ht Hn. unfold cardTitle. cbn.
    destruct (Api.title nft) as [[|? ?]|], (Api.name nft) as [[|? ?]|];
      try discriminate; cbn; by rewrite String.eqb_refl.
Qed.

Lemma card_title_hides_numbered_title_witness :
  let nft := Example.token Example.azuki "7" in
  JS.truthy_opt (Api.title nft) = false
  /\ JS.truthy_opt (Api.name nft) = false
  /\ title (formatNFT "Azuki" nft) = "Azuki #7"
  /\ cardTitle (formatNFT "Azuki" nft) = "Azuki".
Proof.
  intros nft. split; [reflexivity|]. split; [reflexivity|].
  split; [reflexivity|].
  exact (proj2 (card_title_hides_numbered_title (Example.item "1" "")
                  "Azuki" nft) eq_refl eq_refl).
Defined.

(** ** More on the merge *)

Lemma filterUnseen_In (seen : gset string) (l : list NFTResult) (t : string) :
  In t (tokenIds (filterUnseen seen l)) <-> In t (tokenIds l) /\ t ∉ seen.
Proof.
  unfold tokenIds.
  revert seen. induction l as [|x l IH]; intros seen; cbn; [tauto|].
  case_bool_decide as Hx; cbn; rewrite IH, not_elem_of_union,
    not_elem_of_singleton.
  - split.
    + intros (Hin & Hne & Hs). tauto.
    + intros [[<- | Hin] Hs]; [contradiction|].
      repeat split; [assumption| |assumption].
      intros ->. contradiction.
  - split.
    + intros [<- | (Hin & Hne & Hs)]; tauto.
    + intros [[<- | Hin] Hs]; [tauto|].
      destruct (decide (tokenId x = t)) as [Heq|Hne]; [tauto|].
      right. repeat split; [assumption| |assumption]. congruence.
Qed.

Lemma mergeResults_In (resetResults : bool)
    (formattedNFTs prevResults : list NFTResult) (t : string) :
  In t (tokenIds (mergeResults resetResults formattedNFTs prevResults))
  <-> In t (tokenIds (if resetResults then formattedNFTs
                      else prevResults ++ formattedNFTs)).
Proof.
  unfold tokenIds at 1.
  rewrite <- !list_elem_of_In.
  rewrite (Permutation_map tokenId
             (mergeResults_Permutation resetResults formattedNFTs prevResults)).
  rewrite list_elem_of_In. fold (tokenIds (filterUnseen ∅
    (if resetResults then formattedNFTs else prevResults ++ formattedNFTs))).
  rewrite filterUnseen_In, list_elem_of_In.
  split; [tauto|]. intros H. split; [exact H|apply not_elem_of_empty].
Qed.

(** X4: the merge neither loses nor invents an id: the ids of the merged
    results are exactly the ids of the page (first page), or of the
    results already there and the page (continuation); and there are never
    more results than items that went in. *)
Theorem merge_keeps_the_ids (resetResults : bool)
    (formattedNFTs prevResults : list NFTResult) :
  let input :=
    if resetResults then formattedNFTs else prevResults ++ formattedNFTs in
  let results := mergeResults resetResults formattedNFTs prevResults in
  (forall t, In t (tokenIds results) <-> In t (tokenIds input))
  /\ (forall x, In x results -> In x input)
  /\ (length results <= length input)%nat.
Proof.
  intros input results. split; [intros t; apply mergeResults_In|].
  assert (forall x, In x results -> In x input) as Hsub.
  { intros x Hx. apply list_elem_of_In in Hx.
    subst results. rewrite mergeResults_Permutation in Hx.
    apply list_elem_of_In in Hx. by apply filterUnseen_elem in Hx as [Hx _]. }
  split; [exact Hsub|].
  apply NoDup_incl_length.
  - apply (NoDup_map_inv tokenId). apply NoDup_ListNoDup.
    apply mergeResults_NoDup.
  - exact Hsub.
Qed.

Lemma filterUnseen_NoDup_id (seen : gset string) (l : list NFTResult) :
  NoDup (tokenIds l) -> (forall t, In t (tokenIds l) -> t ∉ seen) ->
  filterUnseen seen l = l.
Proof.
  revert seen. induction l as [|x l IH]; intros seen Hnd Hs; cbn; [reflexivity|].
  cbn in Hnd. apply NoDup_cons in Hnd as [Hx Hnd].
  rewrite bool_decide_eq_false_2 by (apply Hs; cbn; auto). cbn.
  f_equal. apply IH; [exact Hnd|].
  intros t Ht. rewrite not_elem_of_union, not_elem_of_singleton. split.
  - intros ->. apply Hx. by apply list_elem_of_In.
  - apply Hs. cbn. auto.
Qed.

Lemma filterUnseen_all_seen (seen : gset string) (l : list NFTResult) :
  (forall t, In t (tokenIds l) -> t ∈ seen) -> filterUnseen seen l = [].
Proof.
  revert seen. induction l as [|x l IH]; intros seen Hs; cbn; [reflexivity|].
  rewrite bool_decide_eq_true_2 by (apply Hs; cbn; auto). cbn.
  apply IH. intros t Ht. apply elem_of_union. right. apply Hs. cbn. auto.
Qed.

Lemma filterUnseen_app (seen : gset string) (l l' : list NFTResult) :
  filterUnseen seen (l ++ l')
  = filterUnseen seen l
    ++ filterUnseen (list_to_set (tokenIds l) ∪ seen) l'.
Proof.
  revert seen. induction l as [|x l IH]; intros seen; cbn.
  - by rewrite (left_id_L ∅ (∪)).
  - rewrite IH.
    replace (list_to_set (tokenIds l) ∪ ({[tokenId x]} ∪ seen))
      with ({[tokenId x]} ∪ list_to_set (tokenIds l) ∪ seen : gset string).
    + by destruct (bool_decide (tokenId x ∈ seen)).
    + rewrite (comm_L (∪) {[tokenId x]} (list_to_set (tokenIds l))).
      by rewrite (assoc_L (∪)).
Qed.

(** X5: when the ids of a first page are all different the merge drops
    nothing: the results are the items of the page, rearranged. *)
Theorem merge_of_distinct_ids_keeps_all (formattedNFTs prevResults : list NFTResult) :
  NoDup (tokenIds formattedNFTs) ->
  Permutation (mergeResults true formattedNFTs prevResults) formattedNFTs
  /\ length (mergeResults true formattedNFTs prevResults)
     = length formattedNFTs.
Proof.
  intros Hnd.
  assert (Permutation (mergeResults true formattedNFTs prevResults)
            formattedNFTs) as Hperm.
  { rewrite mergeResults_Permutation.
    rewrite filterUnseen_NoDup_id; [reflexivity|exact Hnd|].
    intros t _. apply not_elem_of_empty. }
  split; [exact Hperm|]. by apply Permutation_length.
Qed.

Lemma merge_of_distinct_ids_keeps_all_witness :
  let page := [Example.item "3" "c"; Example.item "1" "a"; Example.item "2" "b"] in
  NoDup (tokenIds page)
  /\ Permutation (mergeResults true page []) page
  /\ length (mergeResults true page []) = 3%nat.
Proof.
  intros page.
  assert (NoDup (tokenIds page)) as Hnd.
  { apply (bool_decide_unpack _). vm_compute. exact I. }
  split; [exact Hnd|].
  exact (merge_of_distinct_ids_keeps_all page [] Hnd).
Defined.

Lemma sort_sorted_id (l : list NFTResult) :
  StronglySorted numericOrder l -> sort compareTokenId l = l.
Proof.
  induction 1 as [|x l Hs IH Hx]; cbn; [reflexivity|].
  rewrite IH. destruct l as [|y l]; [reflexivity|]. cbn.
  apply Forall_cons in Hx as [Hxy _].
  unfold numericOrder in Hxy. unfold compareTokenId.
  rewrite gt0_sub; [by rewrite Hxy| |].
  - intros E. rewrite E in Hxy. discriminate.
  - intros E. rewrite E in Hxy.
    by destruct (JS.parseInt (tokenId x)) as [|[]|].
Qed.

(** X6: receiving a page again changes nothing.  When the ids that went
    into a merge are all read as numbers by [parseInt], merging the same
    page once more (as a continuation) gives the same results. *)
Theorem merge_same_page_again (resetResults : bool)
    (formattedNFTs prevResults : list NFTResult) :
  Forall numeric
    (if resetResults then formattedNFTs else prevResults ++ formattedNFTs) ->
  let results := mergeResults resetResults formattedNFTs prevResults in
  mergeResults false formattedNFTs results = results.
Proof.
  intros Hnum results.
  pose proof (mergeResults_sorted _ _ _ Hnum) as Hsorted.
  pose proof (mergeResults_NoDup resetResults formattedNFTs prevResults)
    as Hnd.
  fold results in Hsorted, Hnd.
  unfold mergeResults at 1. cbv zeta.
  rewrite filterUnseen_app.
  rewrite (filterUnseen_NoDup_id ∅ results Hnd)
    by (intros t _; apply not_elem_of_empty).
  rewrite filterUnseen_all_seen.
  - rewrite app_nil_r. by apply sort_sorted_id.
  - intros t Ht. apply elem_of_union. left. apply elem_of_list_to_set.
    apply list_elem_of_In. apply mergeResults_In.
    unfold tokenIds in *. destruct resetResults; [exact Ht|].
    rewrite map_app. apply in_or_app. by right.
Qed.

Lemma merge_same_page_again_witness :
  let page := [Example.item "3" "c"; Example.item "1" "a"; Example.item "3" "d"] in
  Forall numeric page
  /\ tokenIds (mergeResults true page []) = ["1"; "3"]
  /\ mergeResults false page (mergeResults true page [])
     = mergeResults true page [].
Proof.
  intros page.
  assert (Forall numeric page) as Hnum by (repeat constructor; discriminate).
  split; [exact Hnum|]. split; [reflexivity|].
  exact (merge_same_page_again true page [] Hnum).
Defined.

(** ** The requests of a call *)

Ltac prefix_leaf :=
  rewrite ?or_else_self;
  first [ left; eexists; reflexivity | right; eexists; reflexivity ].

(** X7: a call sends at most three requests, in this order: a name search
    for the query (page 1, page size 1), only when it has to resolve a
    name; a contract-metadata request; one listing request for the same
    address, with metadata, limit 100 and the page key of the render that
    made the call.  It never sends a second listing request. *)
Theorem requests_of_a_call (pk : option string) (query : string)
    (contractAddress : option string) (resetResults : bool)
    (s : State) (env : Env) :
  let run := exec (searchNFTs pk query contractAddress resetResults) s env in
  (exists target,
     sent run `prefix_of` pageRequests pk target
     \/ sent run `prefix_of`
          (SearchContractMetadata query 1 1 :: pageRequests pk target))
  /\ (length (sent run) <= 3)%nat
  /\ (length (List.filter isListing (sent run)) <= 1)%nat.
Proof.
  intros run.
  assert (exists target,
            sent run `prefix_of` pageRequests pk target
            \/ sent run `prefix_of`
                 (SearchContractMetadata query 1 1 :: pageRequests pk target))
    as Hshape.
  { subst run. unfold searchNFTs, pageRequests, try_catch_finally, bindB.
    destruct (negb (JS.truthy query) && negb (JS.truthy_opt contractAddress));
      [exists ""; left; exists (pageRequests pk ""); reflexivity|].
    destruct (JS.truthy_opt contractAddress); cbn [negb].
    - exists (default "" contractAddress).
      destruct resetResults; cbn [bind call exec ret fetch].
      all: destruct (JS.truthy (default "" contractAddress)).
      all: cbn [bind call exec ret fetch json ok negb final sent status].
      all: destruct env as [|[o1 [e| |e|meta]] env];
        cbn [bind call exec ret throw fetch json ok negb final sent status];
        try prefix_leaf.
      all: destruct env as [|[o2 [e| |e|page]] env];
        cbn [bind call exec ret throw fetch json ok negb final sent status];
        try prefix_leaf.
      all: destruct (Api.nfts page) as [[|nft nfts]|];
        cbn [bind call exec ret return_ throw final sent status];
        prefix_leaf.
    - destruct (JS.isAddress query).
      + exists query.
        destruct resetResults; cbn [bind call exec ret fetch].
        all: destruct (JS.truthy query).
        all: cbn [bind call exec ret fetch json ok negb final sent status].
        all: destruct env as [|[o1 [e| |e|meta]] env];
          cbn [bind call exec ret throw fetch json ok negb final sent status];
          try prefix_leaf.
        all: destruct env as [|[o2 [e| |e|page]] env];
          cbn [bind call exec ret throw fetch json ok negb final sent status];
          try prefix_leaf.
        all: destruct (Api.nfts page) as [[|nft nfts]|];
          cbn [bind call exec ret return_ throw final sent status];
          prefix_leaf.
      + destruct resetResults; cbn [bind call exec ret fetch].
        all: destruct env as [|[o0 [e| |e|found]] env];
          cbn [bind call exec ret throw fetch json ok negb final sent status];
          try (exists ""; prefix_leaf).
        all: destruct (Api.contracts found) as [[|first rest]|];
          cbn [bind call exec ret return_ throw final sent status];
          try (exists ""; prefix_leaf).
        all: exists (Api.found_address first).
        all: destruct (JS.truthy (Api.found_address first)).
        all: cbn [bind call exec ret fetch json ok negb final sent status].
        all: destruct env as [|[o1 [e| |e|meta]] env];
          cbn [bind call exec ret throw fetch json ok negb final sent status];
          try prefix_leaf.
        all: destruct env as [|[o2 [e| |e|page]] env];
          cbn [bind call exec ret throw fetch json ok negb final sent status];
          try prefix_leaf.
        all: destruct (Api.nfts page) as [[|nft nfts]|];
          cbn [bind call exec ret return_ throw final sent status];
          prefix_leaf. }
  split; [exact Hshape|].
  destruct Hshape as (target & Hshape). unfold pageRequests in Hshape.
  generalize dependent (sent run). clear run. intros l [[k Hk] | [k Hk]].
  - destruct l as [|r1 [|r2 [|r3 l]]]; cbn in Hk;
      try discriminate Hk; simplify_eq; cbn; split; lia.
  - destruct l as [|r1 [|r2 [|r3 [|r4 l]]]]; cbn in Hk;
      try discriminate Hk; simplify_eq; cbn; split; lia.
Qed.

(** X8: a call that is given a contract address (a suggestion, a popular
    collection, a continuation) does not resolve anything: the query is
    neither searched by name nor tested against the address pattern.  The
    address becomes the current contract address at once and is the one
    of the contract-metadata and listing requests, whatever the query. *)
Theorem supplied_address_skips_resolution (pk : option string)
    (query : string) (contractAddress : option string) (resetResults : bool)
    (s : State) (env : Env) :
  JS.truthy_opt contractAddress = true ->
  let call := searchNFTs pk query contractAddress resetResults in
  sent (exec call s env)
    `prefix_of` pageRequests pk (default "" contractAddress)
  /\ Forall (fun r => isNameSearch r = false) (sent (exec call s env))
  /\ sent (exec call s [])
     = [GetContractMetadata (default "" contractAddress)]
  /\ currentContractAddress (final (exec call s [])) = contractAddress.
Proof.
  intros Ha call.
  destruct contractAddress as [address|]; [|discriminate].
  cbn [JS.truthy_opt] in Ha. cbn [default from_option].
  assert (sent (exec call s env) `prefix_of` pageRequests pk address)
    as Hprefix.
  { subst call. unfold searchNFTs, pageRequests, try_catch_finally, bindB.
    cbn [JS.truthy_opt]. rewrite Ha, andb_false_r.
    destruct resetResults;
      cbn [negb bind call exec ret fetch default from_option id].
    all: rewrite Ha.
    all: cbn [bind call exec ret fetch json ok negb final sent status].
    all: rewrite or_else_self.
    all: destruct env as [|[o1 [e| |e|meta]] env];
      cbn [bind call exec ret throw fetch json ok negb final sent status];
      try (eexists; reflexivity).
    all: destruct env as [|[o2 [e| |e|page]] env];
      cbn [bind call exec ret throw fetch json ok negb final sent status];
      try (eexists; reflexivity).
    all: destruct (Api.nfts page) as [[|nft nfts]|];
      cbn [bind call exec ret return_ throw final sent status];
      eexists; reflexivity. }
  split; [exact Hprefix|]. split.
  - destruct Hprefix as [k Hk]. unfold pageRequests in Hk.
    generalize dependent (sent (exec call s env)). intros l Hk.
    destruct l as [|r1 [|r2 [|r3 l]]]; cbn in Hk;
      try discriminate Hk; simplify_eq; repeat constructor.
  - subst call. unfold searchNFTs, try_catch_finally, bindB.
    cbn [JS.truthy_opt]. rewrite Ha, andb_false_r.
    destruct resetResults;
      cbn [negb bind call exec ret fetch default from_option id].
    all: rewrite Ha; cbn; split; reflexivity.
Qed.

Lemma supplied_address_skips_resolution_witness :
  let call := searchNFTs None "anything at all" (Some Example.azuki) true in
  let env := [(id, Ok (Example.metadata None));
              (id, Ok (Example.page Example.azuki ["1"] None))] in
  JS.truthy_opt (Some Example.azuki) = true
  /\ sent (exec call initialState env) = pageRequests None Example.azuki
  /\ sent (exec call initialState env)
       `prefix_of` pageRequests None Example.azuki
  /\ currentContractAddress (final (exec call initialState []))
     = Some Example.azuki.
Proof.
  intros call env. split; [reflexivity|]. split; [reflexivity|].
  destruct (supplied_address_skips_resolution None "anything at all"
              (Some Example.azuki) true initialState env eq_refl)
    as (Hprefix & _ & _ & Hcca).
  split; [exact Hprefix|exact Hcca].
Defined.

(** ** The loading flags when a call ends *)

Lemma endsIdle_exec (p : Prog unit) (a b : bool) (s : State) (env : Env) :
  endsIdle a b p ->
  (a = true -> isLoading s = false) ->
  (b = true -> isLoadingMore s = false) ->
  finished (exec p s env) = true ->
  isLoading (final (exec p s env)) = false
  /\ isLoadingMore (final (exec p s env)) = false.
Proof.
  revert a b s env.
  induction p as [x|u k IH|r k IH]; intros a b s env; cbn [endsIdle exec].
  - intros [-> ->] Ha Hb _. cbn. auto.
  - intros Hk Ha Hb. apply (IH _ _ _ _ Hk).
    + destruct u; cbn; try exact Ha. intros Hv. by destruct v.
    + destruct u; cbn; try exact Hb. intros Hv. by destruct v.
  - intros Hk _ _. destruct env as [|[others resp] env]; cbn.
    + discriminate.
    + apply (IH resp _ _ _ _ (Hk resp)); discriminate.
Qed.

Ltac walk_idle :=
  repeat first
    [ progress cbn [endsIdle negb
                    exec bind bindB call fetch json ok ret return_
                    throw try_catch_finally default from_option]
    | progress unfold try_catch_finally, bindB
    | match goal with
      | |- True => exact I
      | |- true = true => reflexivity
      | |- _ /\ _ => split
      | |- forall _ : Response, _ => intros [? | | ? | ?]
      | |- endsIdle _ _ ?p =>
          match p with
          | context [if ?c then _ else _] => destruct c eqn:?
          | context [match ?x with _ => _ end] => destruct x eqn:?
          end
      end ].

Lemma searchNFTs_endsIdle (pk : option string) (query : string)
    (contractAddress : option string) (resetResults : bool) :
  JS.truthy query || JS.truthy_opt contractAddress = true ->
  endsIdle false false (searchNFTs pk query contractAddress resetResults).
Proof.
  intros Hguard. unfold searchNFTs.
  replace (negb (JS.truthy query) && negb (JS.truthy_opt contractAddress))
    with false
    by (destruct (JS.truthy query), (JS.truthy_opt contractAddress);
        simpl in *; congruence).
  clear Hguard. walk_idle.
Qed.

(** X9: whichever way a call that had something to search for ends
    (results merged, nothing found, a failure at any request), it ends
    with [isLoading] and [isLoadingMore] both false, whatever happened to
    the flags while it was waiting. *)
Theorem call_ends_with_flags_lowered (pk : option string) (query : string)
    (contractAddress : option string) (resetResults : bool)
    (s : State) (env : Env) :
  JS.truthy query || JS.truthy_opt contractAddress = true ->
  let run := exec (searchNFTs pk query contractAddress resetResults) s env in
  finished run = true ->
  isLoading (final run) = false /\ isLoadingMore (final run) = false.
Proof.
  intros Hguard run Hfin.
  eapply endsIdle_exec;
    [by apply searchNFTs_endsIdle|discriminate|discriminate|exact Hfin].
Qed.

Lemma call_ends_with_flags_lowered_witness :
  let raised := applyUpdate (setIsLoading true)
                  (applyUpdate (setIsLoadingMore true) Example.browsing) in
  let run := exec (searchNFTs None "Azuki" None true) initialState
               [(fun _ => raised, Rejected (ErrorObject "offline"))] in
  finished run = true
  /\ isLoading (final run) = false /\ isLoadingMore (final run) = false.
Proof.
  intros raised run. split; [reflexivity|].
  exact (call_ends_with_flags_lowered None "Azuki" None true initialState
           [(fun _ => raised, Rejected (ErrorObject "offline"))]
           eq_refl eq_refl).
Defined.

(** ** The start of a continuation *)

(** X10: a continuation call ([resetResults] false) with something to
    search for has, by the time it first awaits, set [isLoadingMore],
    cleared the error and hidden the suggestions; it has not touched the
    results, the page key, [hasMore] or [isLoading]. *)
Theorem continuation_start_keeps_results (pk : option string)
    (query : string) (contractAddress : option string) (s : State) :
  JS.truthy query || JS.truthy_opt contractAddress = true ->
  let run := exec (searchNFTs pk query contractAddress false) s [] in
  suspended run = true
  /\ searchResults (final run) = searchResults s
  /\ pageKey (final run) = pageKey s
  /\ hasMore (final run) = hasMore s
  /\ isLoading (final run) = isLoading s
  /\ isLoadingMore (final run) = true
  /\ error (final run) = None
  /\ showSuggestions (final run) = false.
Proof.
  intros Hguard. unfold searchNFTs.
  replace (negb (JS.truthy query) && negb (JS.truthy_opt contractAddress))
    with false
    by (destruct (JS.truthy query), (JS.truthy_opt contractAddress);
        simpl in *; congruence).
  unfold try_catch_finally, bindB.
  cbn [bind call exec].
  destruct (JS.truthy_opt contractAddress); cbn [negb].
  - cbn [bind ret].
    destruct (JS.truthy (default "" contractAddress));
      cbn; repeat split; reflexivity.
  - destruct (JS.isAddress query); cbn [bind ret fetch].
    + destruct (JS.truthy query); cbn; repeat split; reflexivity.
    + cbn; repeat split; reflexivity.
Qed.

Lemma continuation_start_keeps_results_witness :
  let run := exec (searchNFTs (Some "page-2") Example.azuki
                     (Some Example.azuki) false) Example.browsing [] in
  suspended run = true
  /\ searchResults (final run) = searchResults Example.browsing
  /\ pageKey (final run) = pageKey Example.browsing
  /\ hasMore (final run) = hasMore Example.browsing
  /\ isLoading (final run) = isLoading Example.browsing
  /\ isLoadingMore (final run) = true
  /\ error (final run) = None
  /\ showSuggestions (final run) = false.
Proof.
  exact (continuation_start_keeps_results (Some "page-2") Example.azuki
           (Some Example.azuki) Example.browsing eq_refl).
Defined.

(** ** The page key after a listing response *)

Lemma truthy_or_null (k : option string) :
  JS.truthy_opt (JS.or_null k) = JS.truthy_opt k.
Proof. by destruct k as [[|c k]|]. Qed.

(** X11: after a listing response with items, [hasMore] is true exactly
    when a page key is stored, and the key stored is the non-empty key of
    the response (an empty-string key counts as none).  After a listing
    response without items [hasMore] is false and the page key is left as
    it was, so an old key may stay behind. *)
Theorem page_key_after_listing (pk : option string) (query : string)
    (contractAddress : option string) (resetResults : bool)
    (s : State) (pre : Env) (others : State -> State) (data : Api.Json) :
  let call := searchNFTs pk query contractAddress resetResults in
  awaitsListing (exec call s pre) = true ->
  let before := others (final (exec call s pre)) in
  let after := final (exec call s (pre ++ [(others, Ok data)])) in
  if noItems data
  then hasMore after = false /\ pageKey after = pageKey before
  else hasMore after = JS.truthy_opt (pageKey after)
       /\ pageKey after = JS.or_null (Api.pageKey data).
Proof.
  intros call Hlist before after.
  unfold awaitsListing, awaited in Hlist.
  destruct (status (exec call s pre)) as [|r k] eqn:Hst; [discriminate|].
  subst after. rewrite (exec_snoc _ _ _ _ _ _ _ Hst). cbn [final].
  fold before.
  destruct (noItems data) eqn:Hitems.
  - destruct (everyAwait_exec _ _ _ _ _ _
                (searchNFTs_emptyPageEnds pk query contractAddress resetResults)
                Hst) as [Hk _].
    destruct (Hk Hlist data before Hitems) as (_ & _ & Hmore & _ & _ & Hkey & _).
    split; assumption.
  - destruct (everyAwait_exec _ _ _ _ _ _
                (searchNFTs_pageMerged pk query contractAddress resetResults)
                Hst) as [Hk _].
    destruct (Hk Hlist) as [contractName Hrun].
    destruct (Hrun data before Hitems) as (_ & _ & _ & Hkey & Hmore & _).
    rewrite Hkey, Hmore, truthy_or_null. split; reflexivity.
Qed.

Lemma page_key_after_listing_witness :
  let call := searchNFTs None "Azuki" (Some Example.azuki) false in
  let pre := [(id, Ok (Example.metadata None))] in
  let lastPage := Example.page Example.azuki ["9"] (Some "") in
  let emptyPage := Example.page Example.azuki [] None in
  awaitsListing (exec call Example.browsing pre) = true
  /\ (let after := final (exec call Example.browsing (pre ++ [(id, Ok lastPage)])) in
      hasMore after = false /\ pageKey after = None)
  /\ (let after := final (exec call Example.browsing (pre ++ [(id, Ok emptyPage)])) in
      hasMore after = false /\ pageKey after = Some "page-2").
Proof.
  intros call pre lastPage emptyPage. subst call.
  split; [reflexivity|]. split.
  - pose proof (page_key_after_listing None "Azuki" (Some Example.azuki) false
                  Example.browsing pre id lastPage eq_refl) as H.
    cbv zeta in H. change (noItems lastPage) with false in H.
    destruct H as [Hmore Hkey]. cbv zeta.
    split; [rewrite Hmore, Hkey|rewrite Hkey]; reflexivity.
  - exact (page_key_after_listing None "Azuki" (Some Example.azuki) false
             Example.browsing pre id emptyPage eq_refl).
Defined.

(** ** The page key a request carries *)

Lemma mergeResults_nonempty (resetResults : bool) (x : NFTResult)
    (l prev : list NFTResult) :
  mergeResults resetResults (x :: l) prev <> [].
Proof.
  intros H.
  pose proof (mergeResults_Permutation resetResults (x :: l) prev) as Hp.
  rewrite H in Hp.
  assert (exists y rest,
            (if resetResults then x :: l else prev ++ x :: l) = y :: rest)
    as (y & rest & Heq)
    by (destruct resetResults, prev; cbn; eauto).
  rewrite Heq in Hp. cbn in Hp.
  rewrite bool_decide_eq_false_2 in Hp by apply not_elem_of_empty.
  cbn in Hp. by apply Permutation_nil_cons in Hp.
Qed.

(** Run the event loop one event at a time, innermost event first. *)
Ltac settle_step known :=
  repeat (cbn -[bool_decide mergeResults formatNFT JS.or_else];
          rewrite ?known, ?andb_false_r, ?andb_true_r, ?or_else_self;
          rewrite ?bool_decide_eq_true_2 by reflexivity;
          rewrite ?bool_decide_eq_false_2
            by first [discriminate | apply mergeResults_nonempty]).

Ltac advance known :=
  match goal with
  | |- context [step ?w ?ev] =>
      lazymatch w with
      | context [step _ _] => fail
      | _ => idtac
      end;
      let H := fresh "Hstep" in
      eassert (step w ev = _) as H
        by (unfold step, handle, launch, render, loadMore, triggerRendered,
              sameDeps, searchNFTs, try_catch_finally, bindB;
            settle_step known; reflexivity);
      rewrite H; clear H
  end.

(** X12: [loadMore] is memoised on [isLoadingMore], [hasMore] and
    [currentContractAddress], not on [pageKey], so after the first page of
    a search in a fresh component it still holds the call of the render in
    which the page key was null.  The first continuation therefore asks
    for the first page again, although the key of the next page is
    stored; only the continuation after it sends that key. *)
Theorem first_continuation_repeats_first_page (name address : string)
    (meta page meta' meta'' : Api.Json) :
  JS.truthy address = true ->
  noItems page = false ->
  JS.truthy_opt (Api.pageKey page) = true ->
  let shown := steps initialWorld
                 [Pick name address; Respond 0 (Ok meta); Respond 0 (Ok page)] in
  let first := steps shown [Intersect; Respond 0 (Ok meta')] in
  let second := steps first [Respond 0 (Ok page); Intersect;
                             Respond 0 (Ok meta'')] in
  inflight shown = []
  /\ pageKey (state shown) = Api.pageKey page
  /\ network first = pageRequests None address ++ pageRequests None address
  /\ network second
     = network first ++ pageRequests (Api.pageKey page) address.
Proof.
  intros Ha Hpage Hkey shown first second. subst second first shown.
  destruct page as [cs mn nfts key]. unfold noItems in Hpage.
  cbn in Hpage, Hkey.
  destruct nfts as [[|nft nfts]|]; try discriminate Hpage.
  destruct key as [[|c key]|]; try discriminate Hkey.
  unfold steps, pageRequests. cbn [fold_left].
  do 8 advance Ha.
  cbn. repeat split; reflexivity.
Qed.

Lemma first_continuation_repeats_first_page_witness :
  let page := Example.page Example.azuki ["1"; "2"] (Some "page-2") in
  let meta := Example.metadata (Some "Azuki") in
  let shown := steps initialWorld
                 [Pick "Azuki" Example.azuki; Respond 0 (Ok meta);
                  Respond 0 (Ok page)] in
  let first := steps shown [Intersect; Respond 0 (Ok meta)] in
  let second := steps first [Respond 0 (Ok page); Intersect;
                             Respond 0 (Ok meta)] in
  pageKey (state shown) = Some "page-2"
  /\ network first
     = pageRequests None Example.azuki ++ pageRequests None Example.azuki
  /\ network second
     = network first ++ pageRequests (Some "page-2") Example.azuki.
Proof.
  intros page meta shown first second.
  destruct (first_continuation_repeats_first_page "Azuki" Example.azuki
              meta page meta meta eq_refl eq_refl eq_refl)
    as (_ & Hkey & Hfirst & Hsecond).
  split; [exact Hkey|]. split; [exact Hfirst|exact Hsecond].
Defined.

(** X13: a new search sets the stored page key to null, but the call that
    does so was made by the render before: its own listing request still
    carries the key that was stored when the search was begun (the key of
    the collection shown until then). *)
Theorem new_search_sends_stored_page_key (w : World) (name address : string)
    (meta : Api.Json) :
  inflight w = [] ->
  JS.truthy address = true ->
  let begun := step w (Pick name address) in
  let asked := step begun (Respond 0 (Ok meta)) in
  pageKey (state begun) = None
  /\ network asked
     = network w ++ pageRequests (pageKey (state w)) address.
Proof.
  intros Hin Ha begun asked. subst asked begun.
  destruct w as [s c l n]. cbn in Hin. subst l.
  unfold pageRequests.
  do 2 advance Ha.
  cbn. rewrite <- app_assoc. split; reflexivity.
Qed.

Lemma new_search_sends_stored_page_key_witness :
  let w := {| state := Example.browsing;
              loadMoreClosure := capture Example.browsing;
              inflight := [];
              network := [] |} in
  let begun := step w (Pick "Doodles" Example.doodles) in
  let asked := step begun (Respond 0 (Ok (Example.metadata None))) in
  pageKey (state begun) = None
  /\ network asked
     = [GetContractMetadata Example.doodles;
        GetNFTsForCollection Example.doodles true 100 (Some "page-2")].
Proof.
  intros w.
  exact (new_search_sends_stored_page_key w "Doodles" Example.doodles
           (Example.metadata None) eq_refl eq_refl).
Defined.

(** ** Suggestions *)

(** X14: [fetchSuggestions] fails silently.  For a query of fewer than two
    characters it sends nothing and empties the suggestions; when its
    request fails in any way (rejected, status not ok, unreadable body, no
    [contracts] array) it empties the suggestions too.  In both cases
    nothing else changes: no error is stored and the dropdown flag is left
    alone. *)
Theorem suggestions_cleared_silently (searchQuery : string)
    (others : State -> State) (resp : Settled Suggest.Json) (s : State) :
  (String.length searchQuery < 2)%nat \/ unusable resp = true ->
  let p := fetchSuggestions searchQuery in
  let before := match asked p with Some _ => others s | None => s end in
  settle p others resp s = setSuggestions [] before
  /\ ((String.length searchQuery < 2)%nat -> asked p = None).
Proof.
  intros H p before. subst before p. unfold fetchSuggestions.
  destruct (Z.ltb_spec (Z.of_nat (String.length searchQuery)) 2) as [Hlt|Hge].
  - split; reflexivity.
  - cbn. destruct H as [H | H]; [lia|].
    split; [|lia].
    destruct resp as [e| |e|data]; try reflexivity.
    cbn in H. destruct (Suggest.contracts data); [discriminate|reflexivity].
Qed.

Lemma suggestions_cleared_silently_witness :
  let shown := applyUpdate (setShowSuggestions true)
                 (setSuggestions
                    [{| suggestion_name := "Azuki";
                        suggestion_address := Example.azuki;
                        thumbnail := None |}] Example.browsing) in
  (String.length "a" < 2)%nat
  /\ unusable (StatusNotOk : Settled Suggest.Json) = true
  /\ settle (fetchSuggestions "a") id StatusNotOk shown
     = setSuggestions [] shown
  /\ settle (fetchSuggestions "azu") id StatusNotOk shown
     = setSuggestions [] shown
  /\ asked (fetchSuggestions "a") = None.
Proof.
  intros shown.
  assert ((String.length "a" < 2)%nat) as Hshort by (cbn; lia).
  split; [exact Hshort|]. split; [reflexivity|].
  destruct (suggestions_cleared_silently "a" id StatusNotOk shown
              (or_introl Hshort)) as [H1 H2].
  destruct (suggestions_cleared_silently "azu" id StatusNotOk shown
              (or_intror eq_refl)) as [H3 _].
  split; [exact H1|]. split; [exact H3|exact (H2 Hshort)].
Defined.

(** X15: for a query of two characters or more [fetchSuggestions] asks
    the name search for page 1 with page size 5.  When the response has a
    [contracts] array there is one suggestion per contract, in the same
    order and with the same addresses, none with an empty name (a contract
    without a name is called "Unknown Collection"), and the dropdown is
    opened, whether or not a search had closed it meanwhile. *)
Theorem suggestions_from_response (searchQuery : string)
    (others : State -> State) (data : Suggest.Json)
    (contracts : list Suggest.Contract) (s : State) :
  (2 <= String.length searchQuery)%nat ->
  Suggest.contracts data = Some contracts ->
  let p := fetchSuggestions searchQuery in
  let after := settle p others (Body data) s in
  asked p = Some (SearchContractMetadata searchQuery 1 5)
  /\ map suggestion_address (suggestions after)
     = map Suggest.address contracts
  /\ Forall (fun x => suggestion_name x <> "") (suggestions after)
  /\ showSuggestions after = true
  /\ error after = error (others s)
  /\ searchResults after = searchResults (others s).
Proof.
  intros Hlen Hdata p after. subst after p. unfold fetchSuggestions.
  destruct (Z.ltb_spec (Z.of_nat (String.length searchQuery)) 2) as [Hlt|Hge];
    [lia|].
  cbn. rewrite Hdata. cbn.
  split; [reflexivity|]. split; [by rewrite map_map|].
  split; [|repeat split; reflexivity].
  apply Forall_forall. intros x Hx.
  apply list_elem_of_In, in_map_iff in Hx as (c & <- & _). cbn.
  apply or_else_nonempty. discriminate.
Qed.

Lemma suggestions_from_response_witness :
  let contracts :=
    [{| Suggest.name := Some "Azuki"; Suggest.address := Example.azuki;
        Suggest.openSeaMetadata_imageUrl := None |};
     {| Suggest.name := None; Suggest.address := Example.doodles;
        Suggest.openSeaMetadata_imageUrl := None |}] in
  let data := {| Suggest.contracts := Some contracts |} in
  let after := settle (fetchSuggestions "az") id (Body data) Example.browsing in
  (2 <= String.length "az")%nat
  /\ map suggestion_name (suggestions after) = ["Azuki"; "Unknown Collection"]
  /\ map suggestion_address (suggestions after)
     = [Example.azuki; Example.doodles]
  /\ showSuggestions after = true.
Proof.
  intros contracts data after.
  assert ((2 <= String.length "az")%nat) as Hlen by (cbn; lia).
  split; [exact Hlen|]. split; [reflexivity|].
  destruct (suggestions_from_response "az" id data contracts Example.browsing
              Hlen eq_refl) as (_ & Haddr & _ & Hshow & _).
  split; [exact Haddr|exact Hshow].
Defined.

(** X16: a suggestion response is not checked against the query it was
    sent for.  When the requests for two queries are both pending and the
    response to the earlier query arrives last, the suggestions shown are
    those of the earlier query. *)
Theorem last_suggestion_response_wins (earlier later : string)
    (forEarlier forLater : list Suggest.Contract) (s : State) :
  (2 <= String.length earlier)%nat ->
  (2 <= String.length later)%nat ->
  let laterArrived :=
    settle (fetchSuggestions later) id
      (Body {| Suggest.contracts := Some forLater |}) s in
  let earlierArrived :=
    settle (fetchSuggestions earlier) id
      (Body {| Suggest.contracts := Some forEarlier |}) laterArrived in
  suggestions laterArrived = map Suggest.format forLater
  /\ suggestions earlierArrived = map Suggest.format forEarlier.
Proof.
  intros H1 H2 laterArrived earlierArrived.
  subst earlierArrived laterArrived. unfold fetchSuggestions.
  destruct (Z.ltb_spec (Z.of_nat (String.length earlier)) 2); [lia|].
  destruct (Z.ltb_spec (Z.of_nat (String.length later)) 2); [lia|].
  split; reflexivity.
Qed.

Lemma last_suggestion_response_wins_witness :
  let forEarlier :=
    [{| Suggest.name := Some "Azuki"; Suggest.address := Example.azuki;
        Suggest.openSeaMetadata_imageUrl := None |}] in
  let forLater :=
    [{| Suggest.name := Some "Doodles"; Suggest.address := Example.doodles;
        Suggest.openSeaMetadata_imageUrl := None |}] in
  let laterArrived :=
    settle (fetchSuggestions "doodles") id
      (Body {| Suggest.contracts := Some forLater |}) initialState in
  let earlierArrived :=
    settle (fetchSuggestions "az") id
      (Body {| Suggest.contracts := Some forEarlier |}) laterArrived in
  map suggestion_name (suggestions earlierArrived) = ["Azuki"].
Proof.
  intros forEarlier forLater laterArrived earlierArrived.
  assert ((2 <= String.length "az")%nat) as H1 by (cbn; lia).
  assert ((2 <= String.length "doodles")%nat) as H2 by (cbn; lia).
  destruct (last_suggestion_response_wins "az" "doodles" forEarlier forLater
              initialState H1 H2) as [_ H].
  subst earlierArrived laterArrived. rewrite H. reflexivity.
Defined.

(** ** The detail view *)

(** X17: [getNFTMetadata] always sends one request, for the address and
    id it was given, with [refreshCache] set.  When the request fails the
    message of the failure is stored in [error] and nothing else changes:
    the item shown in the detail view, if any, stays. *)
Theorem detail_failure_sets_error (contractAddress id message : string)
    (others : State -> State) (resp : Settled Detail.Json) (s : State) :
  detailFailure resp = Some message ->
  let p := getNFTMetadata contractAddress id in
  asked p = Some (Detail.GetNFTMetadata contractAddress id true)
  /\ settle p others resp s
     = applyUpdate (setError (Some message)) (others s)
  /\ selectedNFT (settle p others resp s) = selectedNFT (others s).
Proof.
  intros Hfail p. subst p. split; [reflexivity|].
  destruct resp as [e| |e|data]; cbn in Hfail; simplify_eq; cbn;
    split; reflexivity.
Qed.

Lemma detail_failure_sets_error_witness :
  let p := getNFTMetadata Example.azuki "7" in
  detailFailure (StatusNotOk : Settled Detail.Json)
    = Some "Failed to fetch NFT metadata"
  /\ error (settle p id StatusNotOk Example.browsing)
     = Some "Failed to fetch NFT metadata"
  /\ selectedNFT (settle p id StatusNotOk Example.browsing) = None.
Proof.
  intros p. split; [reflexivity|].
  destruct (detail_failure_sets_error Example.azuki "7"
              "Failed to fetch NFT metadata" id StatusNotOk Example.browsing
              eq_refl) as (_ & Hstate & Hsel).
  split; [|exact Hsel]. subst p. rewrite Hstate. reflexivity.
Defined.

(** X18: when the request of [getNFTMetadata] succeeds, the item shown in
    the detail view is the formatted response: it keeps the id and
    contract address of the response, has one media entry, and its
    contract name, title and description are never empty.  Nothing else
    changes; in particular an error already shown is not cleared. *)
Theorem detail_success_selects_item (contractAddress id : string)
    (others : State -> State) (data : Detail.Json) (s : State) :
  let after := settle (getNFTMetadata contractAddress id) others
                 (Body data) s in
  exists item m,
    selectedNFT after = Some item
    /\ after = setSelectedNFT (Some item) (others s)
    /\ error after = error (others s)
    /\ tokenId item = Detail.tokenId data
    /\ address (contract item) = Detail.contract_address data
    /\ media item = [m]
    /\ name (contract item) <> ""
    /\ title item <> ""
    /\ description item <> "".
Proof.
  cbn. do 2 eexists. do 6 (split; [reflexivity|]).
  cbn. repeat split.
  - apply or_else_nonempty. discriminate.
  - apply or_else_nonempty, or_else_nonempty. unfold numbered.
    destruct (Detail.interpolate (Detail.contract_name data)); discriminate.
  - apply or_else_nonempty. discriminate.
Qed.

(** X19: the stand-in title of the detail view is built from the raw
    contract name, the contract name shown from the name with its
    fallback.  For a response without title or name: if the contract has a
    name the numbered title is recognised and no second line is shown; if
    it has none (absent, null or empty) the contract is called "Unknown
    Collection" while the title reads "undefined #id", "null #id" or
    " #id", which is shown as the second line. *)
Theorem detail_title_without_contract_name (data : Detail.Json) :
  JS.truthy_opt (Detail.opt (Detail.title data)) = false ->
  JS.truthy_opt (Detail.opt (Detail.name data)) = false ->
  let item := formatDetail data in
  if JS.truthy_opt (Detail.opt (Detail.contract_name data))
  then detailSubtitle item = None
  else name (contract item) = "Unknown Collection"
       /\ detailSubtitle item
          = Some (numbered (Detail.interpolate (Detail.contract_name data))
                    (Detail.tokenId data)).
Proof.
  intros Ht Hn item. subst item. unfold detailSubtitle, numbered.
  assert (title (formatDetail data)
          = (Detail.interpolate (Detail.contract_name data) ++ " #"
             ++ Detail.tokenId data)%string) as Htitle.
  { cbn. destruct (Detail.title data) as [| |[|? ?]],
      (Detail.name data) as [| |[|? ?]]; try discriminate; reflexivity. }
  rewrite Htitle. cbn [formatDetail contract name tokenId].
  destruct (Detail.contract_name data) as [| |[|c n]].
  - cbn. split; reflexivity.
  - cbn. split; reflexivity.
  - cbn. split; reflexivity.
  - cbn [JS.truthy_opt Detail.opt JS.truthy JS.or_else Detail.interpolate].
    by rewrite String.eqb_refl.
Qed.

Lemma detail_title_without_contract_name_witness :
  let data :=
    {| Detail.contract_address := Example.azuki;
       Detail.contract_name := Detail.null;
       Detail.contract_symbol := Detail.null;
       Detail.tokenId := "7";
       Detail.title := Detail.undefined;
       Detail.name := Detail.undefined;
       Detail.description := Detail.undefined;
       Detail.media0_raw_url := Detail.undefined;
       Detail.media0_gateway := Detail.undefined;
       Detail.image_originalUrl := Detail.undefined;
       Detail.image_thumbnailUrl := Detail.undefined |} in
  name (contract (formatDetail data)) = "Unknown Collection"
  /\ detailSubtitle (formatDetail data) = Some "null #7".
Proof.
  intros data.
  exact (detail_title_without_contract_name data eq_refl eq_refl).
Defined.
